(** * repack_s3: a shallow embedding of the S3 Parquet repacking pipeline

    The development follows [src/repack_s3/repack.py] and
    [src/repack_s3/__main__.py].  Python strings are [string], Python
    integers are [Z], exceptions are values of [exn], and code that talks
    to S3, to the local file system or to the shared counters is written
    as a program over atomic operations ([Prog]), which is run either
    sequentially ([run]) or interleaved with other workers ([pool_run]). *)

From Stdlib Require Import ZArith Lia String Ascii List.
From stdpp Require Import base gmap list strings fin_maps.
Import ListNotations.

Local Open Scope string_scope.
Local Open Scope list_scope.
Local Open Scope Z_scope.

(** ** Python string primitives *)

Module PyStr.

(** [s.startswith(p)] *)
Fixpoint startswith (s p : string) {struct p} : bool :=
  match p with
  | EmptyString => true
  | String c p' =>
      match s with
      | EmptyString => false
      | String d s' => if Ascii.eqb c d then startswith s' p' else false
      end
  end.

(** [s[n:]] for [0 <= n] *)
Fixpoint slice_from (n : nat) (s : string) : string :=
  match n with
  | O => s
  | S n' => match s with
            | EmptyString => EmptyString
            | String _ s' => slice_from n' s'
            end
  end.

(** [s[:n]] for [0 <= n] *)
Fixpoint slice_to (n : nat) (s : string) : string :=
  match n with
  | O => EmptyString
  | S n' => match s with
            | EmptyString => EmptyString
            | String c s' => String c (slice_to n' s')
            end
  end.

(** [s.endswith(suf)]: the last [len(suf)] characters of [s] are [suf]. *)
Definition endswith (s suf : string) : bool :=
  (String.length suf <=? String.length s)%nat
  && String.eqb (slice_from (String.length s - String.length suf) s) suf.

Definition lower_ascii (c : ascii) : ascii :=
  let n := nat_of_ascii c in
  if ((65 <=? n) && (n <=? 90))%nat then ascii_of_nat (n + 32) else c.

(** [s.lower()] on the ASCII letters; other characters are kept. *)
Fixpoint lower (s : string) : string :=
  match s with
  | EmptyString => EmptyString
  | String c s' => String (lower_ascii c) (lower s')
  end.

(** Position of the first occurrence of character [c], as [s.find(c)]. *)
Fixpoint find_char (c : ascii) (s : string) : option nat :=
  match s with
  | EmptyString => None
  | String d s' => if Ascii.eqb c d then Some O
                   else option_map S (find_char c s')
  end.

(** [s.split(c, 1)]: at most one split, at the first [c]. *)
Definition split1 (c : ascii) (s : string) : list string :=
  match find_char c s with
  | None => [s]
  | Some i => [slice_to i s; slice_from (S i) s]
  end.

End PyStr.

(** ** Prefixes and the key mapper (repack.py, lines 15-34) *)

Definition _ensure_no_leading_slash (path : string) : string :=
  if PyStr.startswith path "/" then PyStr.slice_from 1 path else path.

Definition _normalize_prefix (prefix : string) : string :=
  let p := _ensure_no_leading_slash prefix in
  if negb (String.eqb p "") && negb (PyStr.endswith p "/") then p +:+ "/" else p.

Definition _rel_key (full_key prefix : string) : string :=
  if String.eqb prefix "" then full_key
  else if negb (PyStr.startswith full_key prefix) then full_key
  else PyStr.slice_from (String.length prefix) full_key.

(** The destination key computed by [_worker] (lines 171-172):
    [dst_key = f"{dst_prefix}{rel}"]. *)
Definition dst_key_of (src_prefix dst_prefix src_key : string) : string :=
  dst_prefix +:+ _rel_key src_key src_prefix.

(** ** Worker count (repack.py, lines 224-229) *)

(** [x or d] for an optional integer: [None] and [0] are falsy. *)
Definition py_or_int (x : option Z) (d : Z) : Z :=
  match x with
  | None => d
  | Some n => if n =? 0 then d else n
  end.

(** [max_workers] after the block guarded by
    [if max_workers is None or max_workers <= 0]; [cpu_count] is the value
    returned by [os.cpu_count()]. *)
Definition effective_workers (max_workers : option Z) (cpu_count : option Z) : Z :=
  match max_workers with
  | Some n => if n <=? 0 then Z.min 32 (4 * py_or_int cpu_count 4) else n
  | None => Z.min 32 (4 * py_or_int cpu_count 4)
  end.

(** The number of processing units as the specification words it: the
    count reported by the system, and 4 when it cannot be determined. *)
Definition units_or_4 (cpu_count : option Z) : Z :=
  match cpu_count with
  | Some n => n
  | None => 4
  end.

(** ** Exceptions and dynamically typed values *)

(** Exceptions the collaborators raise.  All of them are subclasses of
    Python's [Exception], so [except Exception] catches every one. *)
Inductive exn : Type :=
| ClientError (code : string)        (* botocore: 404, 403, NoSuchKey, ... *)
| EndpointConnectionError            (* botocore: transient network failure *)
| ArrowInvalid (msg : string)        (* pyarrow: not a Parquet file *)
| FileNotFoundError
| TypeError (msg : string)
| ValueError (msg : string).

(** Values passed as keyword arguments. *)
Inductive pyval : Type :=
| PStr (s : string)
| PInt (z : Z)
| PS3FileSystem.                     (* the handle built on line 162 *)

(** ** Keyword-argument binding of a Python call *)

(** A signature: parameter names with their default values. *)
Definition signature := list (string * option pyval).

Definition has_param (sig : signature) (name : string) : bool :=
  existsb (fun p => String.eqb (fst p) name) sig.

Fixpoint lookup_kw (kwargs : list (string * pyval)) (name : string) : option pyval :=
  match kwargs with
  | [] => None
  | (k, v) :: rest => if String.eqb k name then Some v else lookup_kw rest name
  end.

(** First keyword of the call that the signature does not declare. *)
Fixpoint unexpected_keyword (sig : signature) (kwargs : list (string * pyval)) : option string :=
  match kwargs with
  | [] => None
  | (k, _) :: rest => if has_param sig k then unexpected_keyword sig rest else Some k
  end.

Fixpoint fill_params (fname : string) (sig : signature) (kwargs : list (string * pyval))
  : exn + list pyval :=
  match sig with
  | [] => inr []
  | (name, default) :: sig' =>
      match (match lookup_kw kwargs name with Some v => Some v | None => default end) with
      | None => inl (TypeError (fname +:+ "() missing 1 required positional argument: '"
                                 +:+ name +:+ "'"))
      | Some v =>
          match fill_params fname sig' kwargs with
          | inl e => inl e
          | inr vs => inr (v :: vs)
          end
      end
  end.

(** A call [f(k1=v1, ..., kn=vn)] of a function that declares no
    catch-all keyword parameter: an undeclared keyword is a [TypeError]
    raised before the body runs. *)
Definition bind_keywords (fname : string) (sig : signature) (kwargs : list (string * pyval))
  : exn + list pyval :=
  match unexpected_keyword sig kwargs with
  | Some k => inl (TypeError (fname +:+ "() got an unexpected keyword argument '" +:+ k +:+ "'"))
  | None => fill_params fname sig kwargs
  end.

(** ** Row batches and the columnar codec *)

Inductive cell : Type :=
| CNull
| CInt (z : Z)
| CStr (s : string).

Definition Row := list cell.

(** An Arrow schema: field names with their type names. *)
Definition Schema := list (string * string).

Record RecordBatch := { batch_schema : Schema; batch_rows : list Row }.

Definition rows_of (batches : list RecordBatch) : list Row :=
  concat (map batch_rows batches).

(** The pyarrow operations the rewriter uses, over the contents of a file.
    [pq_open b] is [pq.ParquetFile(path).schema_arrow] for a file holding
    [b]; [pq_iter_batches n b] is what [pf.iter_batches(batch_size=n)]
    yields, together with the exception that ends the iteration early, if
    any; [pq_encode s bs] is the file a [pq.ParquetWriter(path, s)] leaves
    after [write_batch] of [bs] in this order and [close()].  [pq_decode]
    is the decoded view of a file: its schema and its rows in order. *)
Class Codec := {
  blob : Type;
  blob_empty : blob;
  pq_open : blob -> exn + Schema;
  pq_iter_batches : Z -> blob -> list RecordBatch * option exn;
  pq_encode : Schema -> list RecordBatch -> blob;
  pq_decode : blob -> option (Schema * list Row);
}.

(** What the rewriter relies on from pyarrow.  Reading a file to the end
    in batches of at least one row gives its rows in order, and a file
    written from batches of its schema decodes to these rows in order. *)
Class CodecLaws (codec : Codec) : Prop := {
  read_decodes :
    forall (n : Z) (b : blob) (s : Schema) (bs : list RecordBatch),
      1 <= n -> pq_open b = inr s -> pq_iter_batches n b = (bs, None) ->
      Forall (fun x => batch_schema x = s) bs ->
      pq_decode b = Some (s, rows_of bs);
  write_decodes :
    forall (s : Schema) (bs : list RecordBatch),
      Forall (fun x => batch_schema x = s) bs ->
      pq_decode (pq_encode s bs) = Some (s, rows_of bs);
}.

(** [l] cut into consecutive pieces of [n] elements (the last may be shorter). *)
Fixpoint chunks_fuel {A : Type} (fuel n : nat) (l : list A) : list (list A) :=
  match fuel with
  | O => []
  | S fuel' =>
      match l with
      | [] => []
      | _ => take n l :: chunks_fuel fuel' n (drop n l)
      end
  end.

Definition chunks {A : Type} (n : nat) (l : list A) : list (list A) :=
  chunks_fuel (length l) n l.

(** ** The world the pipeline runs in *)

(** Lines written to stdout and stderr.  Elapsed times and rates are
    floating-point readings of the wall clock and are left out. *)
Inductive LogLine : Type :=
| InfoNothingToDo (src_bucket src_prefix : string)
| InfoFileStart (src_bucket src_key dst_bucket dst_key : string)
| InfoFileDone (src_bucket src_key dst_bucket dst_key : string)
| InfoProgress (processed total : Z)
| InfoStarting (total : Z) (src_bucket src_prefix dst_bucket dst_prefix : string)
               (max_workers batch_size : Z)
| InfoFinished (ok err : Z)
| ErrorLine (src_key dst_key : string) (e : exn)
| Completed (ok err : Z).

(** What an observer of the run sees, oldest first: lines printed, calls
    made to the S3 client, and calls of [rewrite_repack_streaming]. *)
Inductive Event : Type :=
| EvPrint (l : LogLine)
| EvList (bucket prefix : string)
| EvHead (bucket key : string)
| EvDownload (bucket key : string)
| EvUpload (bucket key : string)
| EvCopy (bucket key : string)
| EvCall (fname : string).

(** Events that show a rewrite at work: the call itself and its transfers. *)
Definition is_rewrite_event (ev : Event) : bool :=
  match ev with
  | EvCall _ | EvDownload _ _ | EvUpload _ _ | EvCopy _ _ => true
  | _ => false
  end.

(** One page of [list_objects_v2]: the keys under ["Contents"], when present. *)
Record Page := { Contents : option (list string) }.

(** The response of [head_object]. *)
Record Head := { ContentType : option string }.

Inductive Counter : Type := OkCounter | ErrCounter.

Section Model.

Context {codec : Codec}.

Record S3Object := { body : blob; content_type : option string }.

(** The shared state: the object store keyed by (bucket, key), local
    temporary files keyed by name, open Parquet writers, the outcomes
    the next S3 calls will meet ([Some e]: the call raises [e]), the
    trace, the two counters of [repack_prefix]'s frame, and the answer
    of [os.cpu_count()]. *)
Record State := {
  objects : gmap (string * string) S3Object;
  local_files : gmap nat blob;
  writers : gmap nat (Schema * list RecordBatch);
  next_tmp : nat;
  faults : list (option exn);
  trace : list Event;
  ok_counter : Z;
  err_counter : Z;
  cpus : option Z;
}.

Definition set_objects (f : gmap (string * string) S3Object -> gmap (string * string) S3Object)
           (st : State) : State :=
  {| objects := f (objects st); local_files := local_files st; writers := writers st;
     next_tmp := next_tmp st; faults := faults st; trace := trace st;
     ok_counter := ok_counter st; err_counter := err_counter st; cpus := cpus st |}.

Definition set_local_files (f : gmap nat blob -> gmap nat blob) (st : State) : State :=
  {| objects := objects st; local_files := f (local_files st); writers := writers st;
     next_tmp := next_tmp st; faults := faults st; trace := trace st;
     ok_counter := ok_counter st; err_counter := err_counter st; cpus := cpus st |}.

Definition set_writers
           (f : gmap nat (Schema * list RecordBatch) -> gmap nat (Schema * list RecordBatch))
           (st : State) : State :=
  {| objects := objects st; local_files := local_files st; writers := f (writers st);
     next_tmp := next_tmp st; faults := faults st; trace := trace st;
     ok_counter := ok_counter st; err_counter := err_counter st; cpus := cpus st |}.

Definition set_next_tmp (n : nat) (st : State) : State :=
  {| objects := objects st; local_files := local_files st; writers := writers st;
     next_tmp := n; faults := faults st; trace := trace st;
     ok_counter := ok_counter st; err_counter := err_counter st; cpus := cpus st |}.

Definition set_faults (fs : list (option exn)) (st : State) : State :=
  {| objects := objects st; local_files := local_files st; writers := writers st;
     next_tmp := next_tmp st; faults := fs; trace := trace st;
     ok_counter := ok_counter st; err_counter := err_counter st; cpus := cpus st |}.

Definition log (ev : Event) (st : State) : State :=
  {| objects := objects st; local_files := local_files st; writers := writers st;
     next_tmp := next_tmp st; faults := faults st; trace := trace st ++ [ev];
     ok_counter := ok_counter st; err_counter := err_counter st; cpus := cpus st |}.

Definition set_counters (ok err : Z) (st : State) : State :=
  {| objects := objects st; local_files := local_files st; writers := writers st;
     next_tmp := next_tmp st; faults := faults st; trace := trace st;
     ok_counter := ok; err_counter := err; cpus := cpus st |}.

(** ** Atomic operations *)

(** What a thread does in one step: print a line, make one call of the S3
    client ([Paginate] stands for the whole paginated listing, which
    fails as a whole if one page fails), touch a local file or a Parquet
    writer, run the body of a [with ok_lock:] block, read the counters or
    the number of processing units.  [Enter] performs nothing: it notes in
    the trace that a function is being called, so that properties can
    tell whether the rewriter was reached. *)
Inductive op : Type -> Type :=
| PrintLine (l : LogLine) : op unit
| Paginate (bucket prefix : string) : op (exn + list Page)
| HeadObject (bucket key : string) : op (exn + Head)
| DownloadFile (bucket key : string) (path : nat) : op (exn + unit)
| UploadFile (path : nat) (bucket key : string) : op (exn + unit)
| CopyObject (bucket key content_type : string) : op (exn + unit)
| NamedTemporaryFile : op nat
| PathExists (path : nat) : op bool
| Remove (path : nat) : op (exn + unit)
| ReadLocal (path : nat) : op (exn + blob)
| WriterOpen (path : nat) (schema : Schema) : op unit
| WriterWrite (path : nat) (batch : RecordBatch) : op (exn + unit)
| WriterClose (path : nat) : op unit
| Enter (fname : string) : op unit
| CountLocked (c : Counter) (progress_step total : Z) : op unit
| ResetCounters : op unit
| ReadCounters : op (Z * Z)
| CpuCount : op (option Z).

(** The outcome the environment has in store for the next S3 call. *)
Definition next_fault (st : State) : option exn * State :=
  match faults st with
  | [] => (None, st)
  | f :: fs => (f, set_faults fs st)
  end.

(** Keys of [bucket] that start with [prefix], as the store lists them. *)
Definition keys_under (bucket prefix : string) (st : State) : list string :=
  map (fun e => snd (fst e))
      (filter (fun e => fst (fst e) = bucket /\ PyStr.startswith (snd (fst e)) prefix = true)
              (map_to_list (objects st))).

(** The pages of a listing: at most 1000 keys each; a listing without
    keys is one page without ["Contents"]. *)
Definition pages_of (keys : list string) : list Page :=
  match keys with
  | [] => [ {| Contents := None |} ]
  | _ => map (fun ks => {| Contents := Some ks |}) (chunks 1000 keys)
  end.

(** The body of each [with ok_lock:] block of [_worker] (lines 177-186,
    201-210 and 212-221): bump one counter, and print progress when the
    number of processed files is a multiple of [progress_step] or
    reaches [total].  The lock makes the block atomic, and the counters
    are touched nowhere else while workers run. *)
Definition count_locked (c : Counter) (progress_step total : Z) (st : State) : State :=
  let st1 := match c with
             | OkCounter => set_counters (ok_counter st + 1) (err_counter st) st
             | ErrCounter => set_counters (ok_counter st) (err_counter st + 1) st
             end in
  let processed := ok_counter st1 + err_counter st1 in
  if (processed mod progress_step =? 0) || (processed =? total)
  then log (EvPrint (InfoProgress processed total)) st1
  else st1.

(** A call of the S3 client: the call is noted in the trace, then it
    either meets the failure the environment has in store or acts on the
    store. *)
Definition exec_s3 {X : Type} (ev : Event) (st : State)
           (act : State -> (exn + X) * State) : (exn + X) * State :=
  let '(f, st1) := next_fault (log ev st) in
  match f with
  | Some e => (inl e, st1)
  | None => act st1
  end.

Definition exec_op {X : Type} (o : op X) (st : State) : X * State :=
  match o in op X return X * State with
  | PrintLine l => (tt, log (EvPrint l) st)
  | Paginate bucket prefix =>
      exec_s3 (EvList bucket prefix) st
              (fun st1 => (inr (pages_of (keys_under bucket prefix st1)), st1))
  | HeadObject bucket key =>
      exec_s3 (EvHead bucket key) st
              (fun st1 => match objects st1 !! (bucket, key) with
                          | Some o => (inr {| ContentType := content_type o |}, st1)
                          | None => (inl (ClientError "404"), st1)
                          end)
  | DownloadFile bucket key path =>
      exec_s3 (EvDownload bucket key) st
              (fun st1 => match objects st1 !! (bucket, key) with
                          | Some o => (inr tt, set_local_files (insert path (body o)) st1)
                          | None => (inl (ClientError "404"), st1)
                          end)
  | UploadFile path bucket key =>
      exec_s3 (EvUpload bucket key) st
              (fun st1 => match local_files st1 !! path with
                          | Some b =>
                              (inr tt,
                               set_objects
                                 (insert (bucket, key)
                                         {| body := b;
                                            content_type := Some "binary/octet-stream" |})
                                 st1)
                          | None => (inl FileNotFoundError, st1)
                          end)
  | CopyObject bucket key ct =>
      exec_s3 (EvCopy bucket key) st
              (fun st1 => match objects st1 !! (bucket, key) with
                          | Some o =>
                              (inr tt,
                               set_objects
                                 (insert (bucket, key)
                                         {| body := body o; content_type := Some ct |})
                                 st1)
                          | None => (inl (ClientError "NoSuchKey"), st1)
                          end)
  | NamedTemporaryFile =>
      (next_tmp st,
       set_next_tmp (S (next_tmp st))
                    (set_local_files (insert (next_tmp st) blob_empty) st))
  | PathExists path => (bool_decide (is_Some (local_files st !! path)), st)
  | Remove path =>
      match local_files st !! path with
      | Some _ => (inr tt, set_local_files (delete path) st)
      | None => (inl FileNotFoundError, st)
      end
  | ReadLocal path =>
      match local_files st !! path with
      | Some b => (inr b, st)
      | None => (inl FileNotFoundError, st)
      end
  | WriterOpen path schema => (tt, set_writers (insert path (schema, [])) st)
  | WriterWrite path batch =>
      match writers st !! path with
      | Some (schema, written) =>
          if bool_decide (batch_schema batch = schema)
          then (inr tt, set_writers (insert path (schema, written ++ [batch])) st)
          else (inl (ValueError "Table schema does not match schema used to create file"),
                st)
      | None => (inl (ValueError "writer is closed"), st)
      end
  | WriterClose path =>
      match writers st !! path with
      | Some (schema, written) =>
          (tt, set_writers (delete path)
                           (set_local_files (insert path (pq_encode schema written)) st))
      | None => (tt, st)
      end
  | Enter fname => (tt, log (EvCall fname) st)
  | CountLocked c progress_step total => (tt, count_locked c progress_step total st)
  | ResetCounters => (tt, set_counters 0 0 st)
  | ReadCounters => ((ok_counter st, err_counter st), st)
  | CpuCount => (cpus st, st)
  end.

(** Whether the metadata probe of [(bucket, key)] made in state [st]
    completes without raising. *)
Definition probe_completes (bucket key : string) (st : State) : bool :=
  match fst (exec_op (HeadObject bucket key) st) with
  | inr _ => true
  | inl _ => false
  end.

(** ** Programs over the atomic operations *)

Inductive Prog (A : Type) : Type :=
| Ret (a : A)
| Raise (e : exn)
| Op {X : Type} (o : op X) (k : X -> Prog A).

Arguments Ret {A} a.
Arguments Raise {A} e.
Arguments Op {A X} o k.

Fixpoint bind {A B : Type} (p : Prog A) (f : A -> Prog B) : Prog B :=
  match p with
  | Ret a => f a
  | Raise e => Raise e
  | Op o k => Op o (fun x => bind (k x) f)
  end.

(** [try: p except Exception as e: h e] *)
Fixpoint try_except {A : Type} (p : Prog A) (h : exn -> Prog A) : Prog A :=
  match p with
  | Ret a => Ret a
  | Raise e => h e
  | Op o k => Op o (fun x => try_except (k x) h)
  end.

(** [try: p finally: fin] *)
Fixpoint try_finally {A : Type} (p : Prog A) (fin : Prog unit) : Prog A :=
  match p with
  | Ret a => bind fin (fun _ => Ret a)
  | Raise e => bind fin (fun _ => Raise e)
  | Op o k => Op o (fun x => try_finally (k x) fin)
  end.

(** An operation that returns. *)
Definition perform {X : Type} (o : op X) : Prog X := Op o Ret.

(** An operation that returns or raises. *)
Definition call {X : Type} (o : op (exn + X)) : Prog X :=
  Op o (fun r => match r with inl e => Raise e | inr x => Ret x end).

Definition lift {A : Type} (r : exn + A) : Prog A :=
  match r with inl e => Raise e | inr a => Ret a end.

(** [for x in xs: body x] *)
Fixpoint for_each {A : Type} (xs : list A) (body : A -> Prog unit) : Prog unit :=
  match xs with
  | [] => Ret tt
  | x :: xs' => bind (body x) (fun _ => for_each xs' body)
  end.

(** Sequential execution of a program by one thread. *)
Fixpoint run {A : Type} (p : Prog A) (st : State) : (exn + A) * State :=
  match p with
  | Ret a => (inr a, st)
  | Raise e => (inl e, st)
  | Op o k => let '(x, st1) := exec_op o st in run (k x) st1
  end.

#[global] Instance Prog_ret : MRet Prog := fun A a => Ret a.
#[global] Instance Prog_bind : MBind Prog := fun A B f p => bind p f.

(** ** The functions of repack.py *)

Definition page_get_contents (page : Page) : list string :=
  match Contents page with
  | Some keys => keys
  | None => []
  end.

Definition default_file_extensions : list string := [".parquet"; ".parq"].

(** Lines 37-52. *)
Definition list_parquet_keys (bucket prefix : string) (file_extensions : list string)
  : Prog (list string) :=
  let prefix := _normalize_prefix prefix in
  pages ← call (Paginate bucket prefix);
  mret (fold_left
          (fun keys page =>
             fold_left
               (fun keys key =>
                  let lkey := PyStr.lower key in
                  if existsb (PyStr.endswith lkey) file_extensions
                  then keys ++ [key] else keys)
               (page_get_contents page) keys)
          pages []).

(** Lines 96-101: removal of one temporary file, errors swallowed. *)
Definition remove_quietly (path : nat) : Prog unit :=
  try_except
    (there ← perform (PathExists path);
     if there : bool then call (Remove path) else mret tt)
    (fun _ => mret tt).

(** Lines 55-101. *)
Definition rewrite_repack_streaming
           (src_bucket src_key dst_bucket dst_key : string) (batch_size : Z) : Prog unit :=
  src_tmp_path ← perform NamedTemporaryFile;
  dst_tmp_path ← perform NamedTemporaryFile;
  try_finally
    (call (DownloadFile src_bucket src_key src_tmp_path);;
     pf ← call (ReadLocal src_tmp_path);
     schema ← lift (pq_open pf);
     perform (WriterOpen dst_tmp_path schema);;
     try_finally
       (for_each (fst (pq_iter_batches batch_size pf))
                 (fun batch => call (WriterWrite dst_tmp_path batch));;
        match snd (pq_iter_batches batch_size pf) with
        | Some e => Raise e
        | None => mret tt
        end)
       (perform (WriterClose dst_tmp_path));;
     call (UploadFile dst_tmp_path dst_bucket dst_key))
    (for_each [src_tmp_path; dst_tmp_path] remove_quietly).

(** The parameters declared on lines 55-61. *)
Definition rewrite_repack_streaming_signature : signature :=
  [("src_bucket", None); ("src_key", None); ("dst_bucket", None); ("dst_key", None);
   ("batch_size", Some (PInt 65536))].

(** A keyword call of [rewrite_repack_streaming].  The call is noted in
    the trace before the arguments are bound. *)
Definition call_rewrite_repack_streaming (kwargs : list (string * pyval)) : Prog unit :=
  perform (Enter "rewrite_repack_streaming");;
  args ← lift (bind_keywords "rewrite_repack_streaming"
                             rewrite_repack_streaming_signature kwargs);
  match args with
  | [PStr src_bucket; PStr src_key; PStr dst_bucket; PStr dst_key; PInt batch_size] =>
      rewrite_repack_streaming src_bucket src_key dst_bucket dst_key batch_size
  | _ => Raise (TypeError "rewrite_repack_streaming(): argument of the wrong type")
  end.

(** The exception raised by a call of [rewrite_repack_streaming] that
    passes the keyword [s3fs]. *)
Definition s3fs_error : exn :=
  TypeError "rewrite_repack_streaming() got an unexpected keyword argument 's3fs'".

(** Lines 104-116. *)
Definition _should_skip_existing (bucket key : string) (skip_existing : bool) : Prog bool :=
  if negb skip_existing then mret false
  else try_except (call (HeadObject bucket key);; mret true) (fun _ => mret false).

(** [x or d] for an optional string: [None] and the empty string are falsy. *)
Definition py_or_str (x : option string) (d : string) : string :=
  match x with
  | None => d
  | Some s => if String.eqb s "" then d else s
  end.

(** Lines 119-140. *)
Definition _copy_metadata_if_available (src_bucket src_key dst_bucket dst_key : string)
  : Prog unit :=
  try_except
    (head ← call (HeadObject src_bucket src_key);
     let content_type := py_or_str (ContentType head) "application/octet-stream" in
     call (CopyObject dst_bucket dst_key content_type))
    (fun _ => mret tt).

(** Lines 169-222: the closure [_worker], with the variables of the
    enclosing frame it reads as parameters. *)
Definition _worker (src_bucket src_prefix dst_bucket dst_prefix : string)
           (batch_size : Z) (skip_existing : bool) (total progress_step : Z)
           (src_key : string) : Prog unit :=
  let rel := _rel_key src_key src_prefix in
  let dst_key := dst_prefix +:+ rel in
  perform (PrintLine (InfoFileStart src_bucket src_key dst_bucket dst_key));;
  skip ← _should_skip_existing dst_bucket dst_key skip_existing;
  if skip : bool then
    perform (CountLocked OkCounter progress_step total)
  else
    try_except
      (call_rewrite_repack_streaming
         [("s3fs", PS3FileSystem);
          ("src_bucket", PStr src_bucket);
          ("src_key", PStr src_key);
          ("dst_bucket", PStr dst_bucket);
          ("dst_key", PStr dst_key);
          ("batch_size", PInt batch_size)];;
       _copy_metadata_if_available src_bucket src_key dst_bucket dst_key;;
       perform (PrintLine (InfoFileDone src_bucket src_key dst_bucket dst_key));;
       perform (CountLocked OkCounter progress_step total))
      (fun e =>
         perform (CountLocked ErrCounter progress_step total);;
         perform (PrintLine (ErrorLine src_key dst_key e))).

(** ** The thread pool *)

(** Workers block on I/O and are preempted between operations, so a run
    of the pool is an interleaving of the atomic operations of its
    tasks.  The interleaving is an input: [sched] lists which thread
    moves next.  Properties stated for every [sched] hold for every
    interleaving. *)

(** Threads of the executor with the task each is running, tasks not
    yet picked up, and the exceptions that escaped finished tasks. *)
Record Pool := {
  active : list (Prog unit);
  queue : list (Prog unit);
  escaped : list exn;
}.

(** A thread that finished its task takes the next one from the queue,
    or leaves the pool when the queue is empty. *)
Definition retire (i : nat) (e : option exn) (pl : Pool) : Pool :=
  let esc := escaped pl ++ match e with Some x => [x] | None => [] end in
  match queue pl with
  | t :: q => {| active := <[i := t]> (active pl); queue := q; escaped := esc |}
  | [] => {| active := delete i (active pl); queue := []; escaped := esc |}
  end.

(** One scheduling decision: thread number [c mod (number of threads)]
    performs its next atomic operation, or retires if its task is over. *)
Definition pool_step (c : nat) (pl : Pool) (st : State) : Pool * State :=
  let i := (c mod length (active pl))%nat in
  match active pl !! i with
  | None => (pl, st)
  | Some (Ret _) => (retire i None pl, st)
  | Some (Raise e) => (retire i (Some e) pl, st)
  | Some (Op o k) =>
      let '(x, st1) := exec_op o st in
      ({| active := <[i := k x]> (active pl); queue := queue pl; escaped := escaped pl |},
       st1)
  end.

Fixpoint pool_run (sched : list nat) (pl : Pool) (st : State) : Pool * State :=
  match sched with
  | [] => (pl, st)
  | c :: sched' => let '(pl1, st1) := pool_step c pl st in pool_run sched' pl1 st1
  end.

(** The barrier at the end of the [with] block: what is still running or
    queued is run to its end. *)
Fixpoint drain (tasks : list (Prog unit)) (esc : list exn) (st : State)
  : list exn * State :=
  match tasks with
  | [] => (esc, st)
  | t :: tasks' =>
      let '(r, st1) := run t st in
      drain tasks' (esc ++ match r with inl e => [e] | inr _ => [] end) st1
  end.

(** [with ThreadPoolExecutor(max_workers) as executor:
       list(executor.map(f, xs))]
    under the interleaving chosen by [sched]. *)
Definition executor_map (sched : list nat) (max_workers : Z) (tasks : list (Prog unit))
           (st : State) : (exn + unit) * State :=
  if max_workers <=? 0 then (inl (ValueError "max_workers must be greater than 0"), st)
  else
    let w := Z.to_nat max_workers in
    let '(pl, st1) :=
      pool_run sched {| active := take w tasks; queue := drop w tasks; escaped := [] |} st in
    let '(esc, st2) := drain (active pl ++ queue pl) (escaped pl) st1 in
    match esc with
    | [] => (inr tt, st2)
    | e :: _ => (inl e, st2)
    end.

(** ** The orchestrator (lines 143-249) *)

(** Code of the main thread: state passing with exceptions. *)
Definition M (A : Type) : Type := State -> (exn + A) * State.

#[global] Instance M_ret : MRet M := fun A a st => (inr a, st).
#[global] Instance M_bind : MBind M :=
  fun A B f m st =>
    match m st with
    | (inl e, st1) => (inl e, st1)
    | (inr a, st1) => f a st1
    end.

(** The [S3FileSystem] handle of line 162 is the value [PS3FileSystem];
    building it is taken to succeed.  The timings of lines 167 and 239-242
    only feed the printed rates. *)
Definition repack_prefix (sched : list nat)
           (src_bucket src_prefix dst_bucket dst_prefix : string)
           (max_workers : option Z) (batch_size : Z) (skip_existing : bool)
  : M (Z * Z) :=
  let src_prefix := _normalize_prefix src_prefix in
  let dst_prefix := _normalize_prefix dst_prefix in
  keys ← run (list_parquet_keys src_bucket src_prefix default_file_extensions);
  let total := Z.of_nat (length keys) in
  if total =? 0 then
    run (perform (PrintLine (InfoNothingToDo src_bucket src_prefix)));;
    mret (0, 0)
  else
    run (perform ResetCounters);;
    let progress_step := Z.max 1 (total / 10) in
    cpu_count ← run (perform CpuCount);
    let max_workers := effective_workers max_workers cpu_count in
    run (perform (PrintLine (InfoStarting total src_bucket src_prefix dst_bucket dst_prefix
                                      max_workers batch_size)));;
    executor_map sched max_workers
                 (map (_worker src_bucket src_prefix dst_bucket dst_prefix
                               batch_size skip_existing total progress_step)
                      keys);;
    counters ← run (perform ReadCounters);
    run (perform (PrintLine (InfoFinished (fst counters) (snd counters))));;
    mret counters.

(** ** The command line (__main__.py) *)

(** The namespace returned by [parser.parse_args()]. *)
Record Args := {
  src : string;
  dst : string;
  arg_batch_size : Z;
  workers : Z;
  no_skip_existing : bool;
}.

(** Lines 8-17. *)
Definition _parse_s3_uri (uri : string) : exn + (string * string) :=
  if negb (PyStr.startswith uri "s3://") then inl (ValueError "URI must start with s3://")
  else
    match PyStr.split1 "/" (PyStr.slice_from 5 uri) with
    | [bucket] => inr (bucket, "")
    | bucket :: prefix :: _ => inr (bucket, prefix)
    | [] => inl (ValueError "not enough values to unpack")
    end.

(** Lines 52-66: [main] from the parsed arguments on; the value returned
    is the exit status handed to [sys.exit]. *)
Definition main (sched : list nat) (args : Args) : M Z :=
  src_loc ← run (lift (_parse_s3_uri (src args)));
  dst_loc ← run (lift (_parse_s3_uri (dst args)));
  counts ← repack_prefix sched (fst src_loc) (snd src_loc) (fst dst_loc) (snd dst_loc)
                         (Some (workers args)) (arg_batch_size args)
                         (negb (no_skip_existing args));
  run (perform (PrintLine (Completed (fst counts) (snd counts))));;
  mret (if snd counts =? 0 then 0 else 2).

End Model.

Arguments Ret {codec A} a.
Arguments Raise {codec A} e.
Arguments Op {codec A X} o k.

(** ** A reference codec

    A file is either unreadable ([None]) or a schema with its row groups.
    Reading cuts every row group into batches of [batch_size] rows;
    writing stores every batch as one row group. *)
Module RefCodec.

Definition file : Type := option (Schema * list (list Row)).

Definition open (b : file) : exn + Schema :=
  match b with
  | Some (schema, _) => inr schema
  | None => inl (ArrowInvalid "Parquet magic bytes not found in footer")
  end.

Definition iter_batches (batch_size : Z) (b : file) : list RecordBatch * option exn :=
  match b with
  | None => ([], Some (ArrowInvalid "Parquet magic bytes not found in footer"))
  | Some (schema, groups) =>
      if batch_size <=? 0 then ([], Some (ValueError "batch_size must be positive"))
      else (map (fun rs => {| batch_schema := schema; batch_rows := rs |})
                (flat_map (chunks (Z.to_nat batch_size)) groups),
            None)
  end.

Definition encode (schema : Schema) (batches : list RecordBatch) : file :=
  Some (schema, map batch_rows batches).

Definition decode (b : file) : option (Schema * list Row) :=
  match b with
  | Some (schema, groups) => Some (schema, concat groups)
  | None => None
  end.

Definition codec : Codec :=
  {| blob := file; blob_empty := None; pq_open := open;
     pq_iter_batches := iter_batches; pq_encode := encode; pq_decode := decode |}.

End RefCodec.

(** ** Sample worlds *)

Module Sample.

Definition schema : Schema := [("id", "int64"); ("name", "string")].

Definition row (i : Z) (s : string) : Row := [CInt i; CStr s].

(** Five rows in two row groups. *)
Definition file1 : RefCodec.file :=
  Some (schema, [[row 1 "a"; row 2 "b"; row 3 "c"]; [row 4 "d"; row 5 "e"]]).

Definition obj (b : RefCodec.file) : S3Object (codec := RefCodec.codec) :=
  @Build_S3Object RefCodec.codec b (Some "application/x-parquet").

Definition state_of (objs : list ((string * string) * S3Object (codec := RefCodec.codec)))
           (fs : list (option exn)) : State (codec := RefCodec.codec) :=
  {| objects := list_to_map objs; local_files := ∅; writers := ∅; next_tmp := O;
     faults := fs; trace := []; ok_counter := 0; err_counter := 0; cpus := Some 8 |}.

(** One Parquet object under [in/] and an empty destination. *)
Definition st1 : State (codec := RefCodec.codec) :=
  state_of [(("src", "in/1.parquet"), obj file1)] [].

(** The same, with the destination object already there. *)
Definition st2 : State (codec := RefCodec.codec) :=
  state_of [(("src", "in/1.parquet"), obj file1);
            (("dst", "out/1.parquet"), obj file1)] [].

(** Nothing under the source prefix. *)
Definition st0 : State (codec := RefCodec.codec) :=
  state_of [(("src", "other/readme.txt"), obj None)] [].

(** Two Parquet objects; the destination of the first is already there. *)
Definition st3 : State (codec := RefCodec.codec) :=
  state_of [(("src", "in/1.parquet"), obj file1);
            (("src", "in/sub/2.parq"), obj file1);
            (("src", "in/readme.txt"), obj None);
            (("dst", "out/1.parquet"), obj file1)] [].

End Sample.

(** ** Accounting of a program under interleaving *)

Definition sumZ (l : list Z) : Z := foldr Z.add 0 l.

Section Accounting.

Context {codec : Codec}.

(** [Inv] is a property of the shared state that every step of every
    thread keeps; [measure] is the quantity followed (a counter, or the
    sum of both). *)
Variable Inv : State -> Prop.
Variable measure : State -> Z.

(** [tracks p n]: along every execution of [p] whose steps start in
    states satisfying [Inv] (other threads may run in between), each
    step keeps [Inv], the program ends without raising, and its own
    steps raise [measure] by [n] in total. *)
Fixpoint tracks (p : Prog unit) (n : Z) : Prop :=
  match p with
  | Ret _ => n = 0
  | Raise _ => False
  | Op o k =>
      forall st, Inv st ->
                 Inv (snd (exec_op o st)) /\
                 tracks (k (fst (exec_op o st)))
                        (n - (measure (snd (exec_op o st)) - measure st))
  end.

(** The invariant of a pool whose tasks each account for [d]: the
    measure reached so far, what the running tasks still owe and [d] per
    queued task add up to [target]. *)
Definition pool_inv (d target : Z) (pl : Pool) (st : State) : Prop :=
  Inv st /\ escaped pl = [] /\
  Forall (fun t => tracks t d) (queue pl) /\
  exists ns : list Z,
    Forall2 tracks (active pl) ns /\
    measure st + sumZ ns + d * Z.of_nat (length (queue pl)) = target.

End Accounting.

(** No S3 call is going to fail, and the destination object of every key
    of [keys] is in the store. *)
Definition destinations_exist {codec : Codec} (dst_bucket src_prefix dst_prefix : string)
           (keys : list string) (st : State) : Prop :=
  faults st = [] /\
  forall key, In key keys ->
              is_Some (objects st !! (dst_bucket, dst_key_of src_prefix dst_prefix key)).

(** ** Vocabulary for the properties of the remaining code *)


Definition is_error_line (ev : Event) : bool :=
  match ev with
  | EvPrint (ErrorLine _ _ _) => true
  | _ => false
  end.

Definition is_file_start (ev : Event) : bool :=
  match ev with
  | EvPrint (InfoFileStart _ _ _ _) => true
  | _ => false
  end.

(** How many events of a trace pass a test. *)
Definition count_events (f : Event -> bool) (tr : list Event) : Z :=
  Z.of_nat (length (List.filter f tr)).

(** [st'] has the object store of [st] and the local files of [st],
    except perhaps the two files named [p] and [q]. *)
Definition staging_frame {codec : Codec} (p q : nat) (st st' : State) : Prop :=
  objects st' = objects st /\
  forall path, path <> p -> path <> q -> local_files st' !! path = local_files st !! path.

(** * Properties *)

(** ** Strings *)

Module PyStrFacts.
Import PyStr.

Lemma append_cons (c : ascii) (s t : string) : String c s +:+ t = String c (s +:+ t).
Proof. reflexivity. Qed.

Lemma startswith_app (p s : string) : startswith (p +:+ s) p = true.
Proof.
  induction p as [|c p IH]; [reflexivity|].
  rewrite append_cons. simpl. rewrite Ascii.eqb_refl. exact IH.
Qed.

Lemma startswith_split (s p : string) :
  startswith s p = true -> s = p +:+ slice_from (String.length p) s.
Proof.
  revert s. induction p as [|c p IH]; intros s H.
  - reflexivity.
  - destruct s as [|d s]; [discriminate|]. simpl in H.
    destruct (Ascii.eqb c d) eqn:E; [|discriminate].
    apply Ascii.eqb_eq in E. subst d.
    rewrite append_cons. simpl. f_equal. apply IH. exact H.
Qed.

Lemma app_inv_head (p a b : string) : p +:+ a = p +:+ b -> a = b.
Proof.
  induction p as [|c p IH]; intros H; [exact H|].
  rewrite !append_cons in H. injection H as H. apply IH. exact H.
Qed.

End PyStrFacts.

(** ** Key mapper *)

Lemma rel_key_under_prefix (full_key prefix : string) :
  PyStr.startswith full_key prefix = true ->
  full_key = prefix +:+ _rel_key full_key prefix.
Proof.
  intros H. unfold _rel_key.
  destruct (String.eqb prefix "") eqn:E.
  - apply String.eqb_eq in E. subst prefix. reflexivity.
  - rewrite H. simpl. apply PyStrFacts.startswith_split. exact H.
Qed.

(** C6.  For fixed source and destination prefixes, two distinct source
    keys that both start with the source prefix are mapped to distinct
    destination keys. *)
Theorem key_mapping_injective_under_prefix (src_prefix dst_prefix k1 k2 : string) :
  PyStr.startswith k1 src_prefix = true ->
  PyStr.startswith k2 src_prefix = true ->
  k1 <> k2 ->
  dst_key_of src_prefix dst_prefix k1 <> dst_key_of src_prefix dst_prefix k2.
Proof.
  intros H1 H2 Hne Heq. apply Hne.
  unfold dst_key_of in Heq. apply PyStrFacts.app_inv_head in Heq.
  rewrite (rel_key_under_prefix k1 src_prefix H1).
  rewrite (rel_key_under_prefix k2 src_prefix H2).
  rewrite Heq. reflexivity.
Qed.

Lemma key_mapping_injective_under_prefix_witness :
  dst_key_of "src/" "dst2/" "src/sub/file.parquet" <> dst_key_of "src/" "dst2/" "src/sub/other.parquet".
Proof.
  apply (key_mapping_injective_under_prefix "src/" "dst2/").
  - reflexivity.
  - reflexivity.
  - discriminate.
Defined.

(** C10.  Over all source keys the mapping is not injective: with
    normalised prefixes [src/] and [dst/], the key [src/a] (under the
    prefix) and the key [a] (not under it, passed through unchanged by
    [_rel_key]) are distinct and have the same destination key. *)
Theorem key_mapping_not_injective_in_general :
  exists src_prefix dst_prefix k1 k2 : string,
    _normalize_prefix src_prefix = src_prefix /\
    _normalize_prefix dst_prefix = dst_prefix /\
    k1 <> k2 /\
    PyStr.startswith k1 src_prefix = true /\
    PyStr.startswith k2 src_prefix = false /\
    dst_key_of src_prefix dst_prefix k1 = dst_key_of src_prefix dst_prefix k2.
Proof.
  exists "src/", "dst/", "src/a", "a".
  repeat split; try reflexivity. discriminate.
Qed.

(** ** Worker count *)

(** C7.  [os.cpu_count()] returns [None] or the number of processing
    units, never 0.  Then an absent or non-positive worker count is
    replaced by min(32, 4 x units), with 4 units when the count is
    unknown, and a positive worker count is used unchanged. *)
Theorem effective_workers_spec (max_workers cpu_count : option Z) :
  cpu_count <> Some 0 ->
  ((max_workers = None \/ exists n, max_workers = Some n /\ n <= 0) ->
   effective_workers max_workers cpu_count = Z.min 32 (4 * units_or_4 cpu_count)) /\
  (forall n, max_workers = Some n -> 0 < n ->
             effective_workers max_workers cpu_count = n).
Proof.
  intros Hcpu.
  assert (Hor : py_or_int cpu_count 4 = units_or_4 cpu_count).
  { destruct cpu_count as [c|]; simpl; [|reflexivity].
    destruct (Z.eqb_spec c 0) as [->|_]; [contradiction Hcpu; reflexivity | reflexivity]. }
  split.
  - intros [-> | [n [-> Hn]]]; unfold effective_workers; rewrite Hor; [reflexivity|].
    destruct (Z.leb_spec n 0); [reflexivity | lia].
  - intros n -> Hn. unfold effective_workers.
    destruct (Z.leb_spec n 0); [lia | reflexivity].
Qed.

Lemma effective_workers_spec_witness :
  effective_workers (Some 0) (Some 2) = 8 /\
  effective_workers None None = 16 /\
  effective_workers (Some (-3)) (Some 64) = 32 /\
  effective_workers (Some 5) (Some 64) = 5.
Proof.
  assert (H2 : Some 2 <> Some 0) by discriminate.
  assert (HN : @None Z <> Some 0) by discriminate.
  assert (H64 : Some 64 <> Some 0) by discriminate.
  split; [|split; [|split]].
  - apply (proj1 (effective_workers_spec (Some 0) (Some 2) H2)).
    right. exists 0. split; [reflexivity | lia].
  - apply (proj1 (effective_workers_spec None None HN)). left. reflexivity.
  - apply (proj1 (effective_workers_spec (Some (-3)) (Some 64) H64)).
    right. exists (-3). split; [reflexivity | lia].
  - apply (proj2 (effective_workers_spec (Some 5) (Some 64) H64) 5); [reflexivity | lia].
Defined.

(** ** Running programs *)

Ltac unmonad :=
  unfold mbind, mret, Prog_bind, Prog_ret, M_bind, M_ret in *.

Section RunFacts.

Context {codec : Codec}.

Lemma run_bind {A B : Type} (p : Prog A) (f : A -> Prog B) (st : State) :
  run (bind p f) st =
  match run p st with
  | (inl e, st1) => (inl e, st1)
  | (inr a, st1) => run (f a) st1
  end.
Proof.
  revert st. induction p as [a|e|X o k IH]; intros st; simpl; try reflexivity.
  destruct (exec_op o st) as [x st1]. apply IH.
Qed.

Lemma run_try_except {A : Type} (p : Prog A) (h : exn -> Prog A) (st : State) :
  run (try_except p h) st =
  match run p st with
  | (inl e, st1) => run (h e) st1
  | (inr a, st1) => (inr a, st1)
  end.
Proof.
  revert st. induction p as [a|e|X o k IH]; intros st; simpl; try reflexivity.
  destruct (exec_op o st) as [x st1]. apply IH.
Qed.

Lemma run_try_finally {A : Type} (p : Prog A) (fin : Prog unit) (st : State) :
  run (try_finally p fin) st =
  match run p st with
  | (r, st1) =>
      match run fin st1 with
      | (inl e, st2) => (inl e, st2)
      | (inr _, st2) => (r, st2)
      end
  end.
Proof.
  revert st. induction p as [a|e|X o k IH]; intros st; simpl.
  - rewrite run_bind. destruct (run fin st) as [[e|u] st2]; reflexivity.
  - rewrite run_bind. destruct (run fin st) as [[e'|u] st2]; reflexivity.
  - destruct (exec_op o st) as [x st1]. apply IH.
Qed.

Lemma run_perform {X : Type} (o : op X) (st : State) :
  run (perform o) st = (inr (fst (exec_op o st)), snd (exec_op o st)).
Proof. unfold perform. simpl. destruct (exec_op o st); reflexivity. Qed.

Lemma run_call {X : Type} (o : op (exn + X)) (st : State) :
  run (call o) st = exec_op o st.
Proof.
  unfold call. simpl. destruct (exec_op o st) as [[e|x] st1]; reflexivity.
Qed.

Lemma run_lift {A : Type} (r : exn + A) (st : State) : run (lift r) st = (r, st).
Proof. destruct r; reflexivity. Qed.

(** *** The existence check *)

Lemma probe_not_found (bucket key : string) (st : State) :
  objects st !! (bucket, key) = None -> probe_completes bucket key st = false.
Proof.
  intros H. unfold probe_completes. simpl. unfold exec_s3, next_fault. simpl.
  destruct (faults st) as [|[e|] fs]; simpl; try reflexivity; rewrite H; reflexivity.
Qed.

Lemma probe_fault (bucket key : string) (st : State) (e : exn) (fs : list (option exn)) :
  faults st = Some e :: fs -> probe_completes bucket key st = false.
Proof.
  intros H. unfold probe_completes. simpl. unfold exec_s3, next_fault. simpl.
  rewrite H. reflexivity.
Qed.

Lemma should_skip_existing_run (bucket key : string) (skip_existing : bool) (st : State) :
  run (_should_skip_existing bucket key skip_existing) st =
  if skip_existing
  then (inr (probe_completes bucket key st), snd (exec_op (HeadObject bucket key) st))
  else (inr false, st).
Proof.
  unfold _should_skip_existing, probe_completes.
  destruct skip_existing; [|reflexivity].
  unmonad. cbn [negb]. rewrite run_try_except, run_bind, run_call.
  destruct (exec_op (HeadObject bucket key) st) as [[e|h] st1]; reflexivity.
Qed.

End RunFacts.

(** C4.  [_should_skip_existing] never raises, and it returns [True]
    exactly when [skip_existing] is set and the metadata probe completes
    without raising.  A probe that fails, because the object is not there
    or because the call itself fails, gives [False]. *)
Theorem should_skip_existing_iff {codec : Codec}
        (bucket key : string) (skip_existing : bool) (st : State) :
  exists r : bool,
    fst (run (_should_skip_existing bucket key skip_existing) st) = inr r /\
    (r = true <-> skip_existing = true /\ probe_completes bucket key st = true) /\
    (objects st !! (bucket, key) = None -> r = false) /\
    (forall e fs, faults st = Some e :: fs -> r = false).
Proof.
  rewrite should_skip_existing_run.
  destruct skip_existing; simpl.
  - exists (probe_completes bucket key st). split; [reflexivity|]. split; [|split].
    + split; [intros H; split; [reflexivity | exact H] | intros [_ H]; exact H].
    + apply probe_not_found.
    + intros e fs. apply probe_fault.
  - exists false. split; [reflexivity|]. split; [|split]; try reflexivity.
    split; [discriminate | intros [H _]; discriminate H].
Qed.

Lemma should_skip_existing_iff_witness :
  fst (run (_should_skip_existing (codec := RefCodec.codec) "dst" "out/1.parquet" true)
           Sample.st2) = inr true /\
  fst (run (_should_skip_existing (codec := RefCodec.codec) "dst" "out/1.parquet" true)
           Sample.st1) = inr false.
Proof.
  split.
  - destruct (should_skip_existing_iff (codec := RefCodec.codec)
                "dst" "out/1.parquet" true Sample.st2) as [r [Hr [Hiff _]]].
    rewrite Hr. f_equal. apply Hiff. split; [reflexivity | vm_compute; reflexivity].
  - destruct (should_skip_existing_iff (codec := RefCodec.codec)
                "dst" "out/1.parquet" true Sample.st1) as [r [Hr [_ [Hnone _]]]].
    rewrite Hr. f_equal. apply Hnone. vm_compute. reflexivity.
Defined.

(** ** The lister and the empty run *)

Section ListerFacts.

Context {codec : Codec}.

(** A listing only reads the store: it adds one event to the trace and
    uses up one outcome of the environment. *)
Lemma paginate_effect (bucket prefix : string) (st : State) :
  let st1 := snd (exec_op (Paginate bucket prefix) st) in
  objects st1 = objects st /\ local_files st1 = local_files st /\
  writers st1 = writers st /\ next_tmp st1 = next_tmp st /\
  ok_counter st1 = ok_counter st /\ err_counter st1 = err_counter st /\
  cpus st1 = cpus st /\ trace st1 = trace st ++ [EvList bucket prefix] /\
  faults st1 = tail (faults st).
Proof.
  simpl. unfold exec_s3, next_fault. simpl.
  destruct (faults st) as [|[e|] fs] eqn:Hf; simpl; rewrite ?Hf; repeat split; reflexivity.
Qed.

Lemma list_parquet_keys_effect (bucket prefix : string) (exts keys : list string)
      (st st1 : State) :
  run (list_parquet_keys bucket prefix exts) st = (inr keys, st1) ->
  objects st1 = objects st /\ local_files st1 = local_files st /\
  ok_counter st1 = ok_counter st /\ err_counter st1 = err_counter st /\
  cpus st1 = cpus st /\ trace st1 = trace st ++ [EvList bucket (_normalize_prefix prefix)] /\
  faults st1 = tail (faults st).
Proof.
  unfold list_parquet_keys. unmonad. rewrite run_bind, run_call.
  pose proof (paginate_effect bucket (_normalize_prefix prefix) st) as H.
  destruct (exec_op (Paginate bucket (_normalize_prefix prefix)) st) as [[e|pages] st2];
    simpl in *; intros Heq; [discriminate|].
  injection Heq as _ <-. tauto.
Qed.

End ListerFacts.

(** The run that finds no key. *)
Lemma repack_prefix_empty_run {codec : Codec} (sched : list nat)
      (src_bucket src_prefix dst_bucket dst_prefix : string)
      (max_workers : option Z) (batch_size : Z) (skip_existing : bool)
      (st st1 : State) :
  run (list_parquet_keys src_bucket (_normalize_prefix src_prefix) default_file_extensions) st
  = (inr [], st1) ->
  repack_prefix sched src_bucket src_prefix dst_bucket dst_prefix
                max_workers batch_size skip_existing st
  = (inr (0, 0),
     log (EvPrint (InfoNothingToDo src_bucket (_normalize_prefix src_prefix))) st1).
Proof.
  intros Hlist. unfold repack_prefix. unmonad. rewrite Hlist. reflexivity.
Qed.

(** C8.  When the lister returns no key, [repack_prefix] returns [(0, 0)]
    as a normal result; the object store, the local files and the
    counters are as before, and the only things that happened are the
    listing call and the line saying that there is nothing to do: no task
    was started and nothing was downloaded, uploaded or copied. *)
Theorem repack_prefix_nothing_to_do {codec : Codec} (sched : list nat)
        (src_bucket src_prefix dst_bucket dst_prefix : string)
        (max_workers : option Z) (batch_size : Z) (skip_existing : bool)
        (st st1 : State) :
  run (list_parquet_keys src_bucket (_normalize_prefix src_prefix) default_file_extensions) st
  = (inr [], st1) ->
  exists st',
    repack_prefix sched src_bucket src_prefix dst_bucket dst_prefix
                  max_workers batch_size skip_existing st = (inr (0, 0), st') /\
    objects st' = objects st /\
    local_files st' = local_files st /\
    ok_counter st' = ok_counter st /\ err_counter st' = err_counter st /\
    trace st' = trace st ++
                [EvList src_bucket (_normalize_prefix (_normalize_prefix src_prefix));
                 EvPrint (InfoNothingToDo src_bucket (_normalize_prefix src_prefix))].
Proof.
  intros Hlist.
  pose proof (list_parquet_keys_effect _ _ _ _ _ _ Hlist)
    as (Hobj & Hloc & Hok & Herr & _ & Htr & _).
  eexists. split; [apply repack_prefix_empty_run; exact Hlist|].
  simpl. rewrite Htr, <- app_assoc. simpl. tauto.
Qed.

Lemma repack_prefix_nothing_to_do_witness :
  fst (repack_prefix (codec := RefCodec.codec) [] "src" "in" "dst" "out" (Some 0) 65536 true
                     Sample.st0) = inr (0, 0).
Proof.
  destruct (repack_prefix_nothing_to_do (codec := RefCodec.codec) []
              "src" "in" "dst" "out" (Some 0) 65536 true Sample.st0
              (snd (run (list_parquet_keys "src" "in/" default_file_extensions) Sample.st0)))
    as [st' [Hrun _]].
  - vm_compute. reflexivity.
  - rewrite Hrun. reflexivity.
Defined.

(** C9.  Whenever [main] returns, the pipeline has returned a pair
    [(ok, err)] for the parsed locations, and the exit status is 0 exactly
    when [err] is 0 and 2 when there were failures. *)
Theorem main_exit_code {codec : Codec} (sched : list nat) (args : Args)
        (st st' : State) (code : Z) :
  main sched args st = (inr code, st') ->
  exists src_bucket src_prefix dst_bucket dst_prefix ok err st1,
    _parse_s3_uri (src args) = inr (src_bucket, src_prefix) /\
    _parse_s3_uri (dst args) = inr (dst_bucket, dst_prefix) /\
    repack_prefix sched src_bucket src_prefix dst_bucket dst_prefix
                  (Some (workers args)) (arg_batch_size args)
                  (negb (no_skip_existing args)) st = (inr (ok, err), st1) /\
    (code = 0 <-> err = 0) /\
    (err <> 0 -> code = 2).
Proof.
  unfold main. unmonad. rewrite !run_lift.
  destruct (_parse_s3_uri (src args)) as [e|[sb sp]]; [discriminate|].
  destruct (_parse_s3_uri (dst args)) as [e|[db dp]]; [discriminate|].
  cbn [fst snd].
  destruct (repack_prefix sched sb sp db dp _ _ _ st) as [[e|[ok err]] st1] eqn:Hrun;
    [discriminate|].
  rewrite run_perform. cbn [fst snd]. intros Heq. injection Heq as <- _.
  exists sb, sp, db, dp, ok, err, st1.
  repeat split; try reflexivity; destruct (Z.eqb_spec err 0); intros; try lia; congruence.
Qed.

Lemma main_exit_code_witness :
  exists ok err st1,
    repack_prefix (codec := RefCodec.codec) [] "src" "in" "dst" "out"
                  (Some 0) 65536 true Sample.st2 = (inr (ok, err), st1) /\
    (0 = 0 <-> err = 0).
Proof.
  destruct (main_exit_code (codec := RefCodec.codec) []
              {| src := "s3://src/in"; dst := "s3://dst/out"; arg_batch_size := 65536;
                 workers := 0; no_skip_existing := false |}
              Sample.st2
              (snd (main [] {| src := "s3://src/in"; dst := "s3://dst/out";
                               arg_batch_size := 65536; workers := 0;
                               no_skip_existing := false |} Sample.st2))
              0)
    as (sb & sp & db & dp & ok & err & st1 & Hs & Hd & Hrun & Hiff & _).
  - vm_compute. reflexivity.
  - vm_compute in Hs. vm_compute in Hd.
    injection Hs as <- <-. injection Hd as <- <-.
    exists ok, err, st1. split; [exact Hrun | exact Hiff].
Defined.

(** ** The pool keeps its accounts *)

Lemma sumZ_app (l1 l2 : list Z) : sumZ (l1 ++ l2) = sumZ l1 + sumZ l2.
Proof. induction l1 as [|x l1 IH]; simpl; [reflexivity | rewrite IH; lia]. Qed.

Lemma sumZ_insert (l : list Z) (i : nat) (n y : Z) :
  l !! i = Some n -> sumZ (<[i := y]> l) = sumZ l - n + y.
Proof.
  revert i. induction l as [|x l IH]; intros [|i] H; simpl in *; try discriminate.
  - injection H as ->. lia.
  - rewrite (IH i H). lia.
Qed.

Lemma sumZ_delete (l : list Z) (i : nat) (n : Z) :
  l !! i = Some n -> sumZ (delete i l) = sumZ l - n.
Proof.
  revert i. induction l as [|x l IH]; intros [|i] H; simpl in *; try discriminate.
  - injection H as ->. lia.
  - rewrite (IH i H). lia.
Qed.

Lemma sumZ_replicate (k : nat) (d : Z) : sumZ (replicate k d) = d * Z.of_nat k.
Proof. induction k as [|k IH]; simpl; [lia | rewrite IH; lia]. Qed.

Section PoolFacts.

Context {codec : Codec}.
Variable Inv : State -> Prop.
Variable measure : State -> Z.

(** A tracked program run on its own. *)
Lemma tracks_run (p : Prog unit) (n : Z) (st : State) :
  tracks Inv measure p n -> Inv st ->
  exists st', run p st = (inr tt, st') /\ Inv st' /\ measure st' = measure st + n.
Proof.
  revert n st. induction p as [[]|e|X o k IH]; intros n st Ht HI; simpl in *.
  - exists st. subst n. repeat split; [exact HI | lia].
  - contradiction.
  - destruct (Ht st HI) as [HI1 Ht1].
    destruct (exec_op o st) as [x st1]; simpl in *.
    destruct (IH x _ st1 Ht1 HI1) as (st' & Hrun & HI' & Hm).
    exists st'. repeat split; [exact Hrun | exact HI' | lia].
Qed.

Lemma pool_step_inv (d target : Z) (c : nat) (pl : Pool) (st : State) :
  pool_inv Inv measure d target pl st ->
  pool_inv Inv measure d target (fst (pool_step c pl st)) (snd (pool_step c pl st)).
Proof.
  intros (HI & Hesc & Hq & ns & Hact & Hsum). unfold pool_step.
  set (i := (c mod length (active pl))%nat).
  destruct (active pl !! i) as [p|] eqn:Hp; [|repeat split; eauto].
  destruct (Forall2_lookup_l _ _ _ _ _ Hact Hp) as (n & Hn & Ht).
  destruct p as [[]|e|X o k]; simpl in Ht.
  - (* the task is over: the thread takes the next one *)
    subst n. unfold retire. rewrite Hesc.
    destruct (queue pl) as [|t q] eqn:Hqueue; simpl in *.
    + repeat split; [exact HI | constructor |].
      exists (delete i ns). split; [apply Forall2_delete; exact Hact|].
      rewrite (sumZ_delete _ _ _ Hn). simpl. lia.
    + inversion Hq as [|? ? Ht' Hq']; subst.
      repeat split; [exact HI | exact Hq' |].
      exists (<[i := d]> ns). split; [apply Forall2_insert; assumption|].
      rewrite (sumZ_insert _ _ _ _ Hn). simpl. lia.
  - contradiction.
  - destruct (Ht st HI) as [HI1 Ht1].
    destruct (exec_op o st) as [x st1]; simpl in *.
    repeat split; [exact HI1 | exact Hesc | exact Hq |].
    exists (<[i := n - (measure st1 - measure st)]> ns).
    split; [apply Forall2_insert; assumption|].
    rewrite (sumZ_insert _ _ _ _ Hn). simpl. lia.
Qed.

Lemma pool_run_inv (d target : Z) (sched : list nat) (pl : Pool) (st : State) :
  pool_inv Inv measure d target pl st ->
  pool_inv Inv measure d target (fst (pool_run sched pl st)) (snd (pool_run sched pl st)).
Proof.
  revert pl st. induction sched as [|c sched IH]; intros pl st H; simpl; [exact H|].
  pose proof (pool_step_inv d target c pl st H) as H1.
  destruct (pool_step c pl st) as [pl1 st1]. apply IH. exact H1.
Qed.

Lemma drain_tracked (tasks : list (Prog unit)) (ns : list Z) (st : State) :
  Forall2 (tracks Inv measure) tasks ns -> Inv st ->
  exists st', drain tasks [] st = ([], st') /\ Inv st' /\
              measure st' = measure st + sumZ ns.
Proof.
  intros H. revert st. induction H as [|t n tasks ns Ht _ IH]; intros st HI; simpl.
  - exists st. repeat split; [exact HI | lia].
  - destruct (tracks_run t n st Ht HI) as (st1 & Hrun & HI1 & Hm1).
    rewrite Hrun. simpl.
    destruct (IH st1 HI1) as (st' & Hd & HI' & Hm).
    exists st'. repeat split; [exact Hd | exact HI' | lia].
Qed.

(** Whatever the interleaving, a pool whose tasks each account for [d]
    ends normally with the measure raised by [d] per task. *)
Lemma executor_map_tracked (d : Z) (sched : list nat) (max_workers : Z)
      (tasks : list (Prog unit)) (st : State) :
  0 < max_workers -> Inv st ->
  Forall (fun t => tracks Inv measure t d) tasks ->
  exists st', executor_map sched max_workers tasks st = (inr tt, st') /\ Inv st' /\
              measure st' = measure st + d * Z.of_nat (length tasks).
Proof.
  intros Hw HI Htasks. unfold executor_map.
  destruct (Z.leb_spec max_workers 0) as [?|_]; [lia|].
  set (w := Z.to_nat max_workers).
  set (pl0 := {| active := take w tasks; queue := drop w tasks; escaped := [] |}).
  assert (H0 : pool_inv Inv measure d (measure st + d * Z.of_nat (length tasks)) pl0 st).
  { repeat split; [exact HI | apply Forall_drop; exact Htasks |].
    exists (replicate (length (take w tasks)) d). split.
    - apply Forall2_replicate_r; [reflexivity | apply Forall_take; exact Htasks].
    - rewrite sumZ_replicate. simpl.
      rewrite <- (take_drop w tasks) at 3. rewrite length_app. lia. }
  pose proof (pool_run_inv d _ sched pl0 st H0) as H1.
  destruct (pool_run sched pl0 st) as [pl st1]; simpl in H1.
  destruct H1 as (HI1 & Hesc & Hq & ns & Hact & Hsum).
  assert (Hall : Forall2 (tracks Inv measure) (active pl ++ queue pl)
                         (ns ++ replicate (length (queue pl)) d)).
  { apply Forall2_app; [exact Hact|].
    apply Forall2_replicate_r; [reflexivity | exact Hq]. }
  rewrite Hesc.
  destruct (drain_tracked _ _ st1 Hall HI1) as (st' & Hd & HI' & Hm).
  rewrite Hd. exists st'. repeat split; [exact HI'|].
  rewrite Hm, sumZ_app, sumZ_replicate. lia.
Qed.

End PoolFacts.

(** ** One worker *)

Section WorkerFacts.

Context {codec : Codec}.

(** The call on lines 189-196 passes the keyword [s3fs], which the
    signature on lines 55-61 does not declare: binding the arguments
    raises, and the body of the rewriter is never entered. *)
Lemma call_rewrite_with_s3fs (v1 v2 v3 v4 v5 v6 : pyval) :
  call_rewrite_repack_streaming
    [("s3fs", v1); ("src_bucket", v2); ("src_key", v3);
     ("dst_bucket", v4); ("dst_key", v5); ("batch_size", v6)]
  = Op (Enter "rewrite_repack_streaming") (fun _ => Raise s3fs_error).
Proof. reflexivity. Qed.

(** [_worker] with the call of the rewriter evaluated. *)
Lemma worker_unfold (src_bucket src_prefix dst_bucket dst_prefix : string)
      (batch_size : Z) (skip_existing : bool) (total progress_step : Z) (src_key : string) :
  let dst_key := dst_key_of src_prefix dst_prefix src_key in
  _worker src_bucket src_prefix dst_bucket dst_prefix batch_size skip_existing
          total progress_step src_key
  = Op (PrintLine (InfoFileStart src_bucket src_key dst_bucket dst_key))
       (fun _ =>
          bind (_should_skip_existing dst_bucket dst_key skip_existing)
               (fun skip : bool =>
                  if skip then perform (CountLocked OkCounter progress_step total)
                  else
                    Op (Enter "rewrite_repack_streaming")
                       (fun _ =>
                          Op (CountLocked ErrCounter progress_step total)
                             (fun _ =>
                                Op (PrintLine (ErrorLine src_key dst_key s3fs_error)) Ret)))).
Proof. reflexivity. Qed.

Lemma count_locked_effect (c : Counter) (progress_step total : Z) (st : State) :
  let st1 := count_locked c progress_step total st in
  ok_counter st1 = ok_counter st + (match c with OkCounter => 1 | ErrCounter => 0 end) /\
  err_counter st1 = err_counter st + (match c with OkCounter => 0 | ErrCounter => 1 end) /\
  objects st1 = objects st /\ local_files st1 = local_files st /\
  faults st1 = faults st /\
  exists evs, trace st1 = trace st ++ evs /\
              forallb (fun ev => negb (is_rewrite_event ev)) evs = true.
Proof.
  unfold count_locked.
  destruct c; simpl;
    match goal with |- context [if ?b then _ else _] => destruct b end; simpl;
    repeat split; try lia;
    first [ exists []; rewrite app_nil_r; split; reflexivity
          | eexists [_]; split; reflexivity ].
Qed.

Lemma head_object_effect (bucket key : string) (st : State) :
  let st1 := snd (exec_op (HeadObject bucket key) st) in
  ok_counter st1 = ok_counter st /\ err_counter st1 = err_counter st /\
  objects st1 = objects st /\ local_files st1 = local_files st /\
  faults st1 = tail (faults st) /\
  trace st1 = trace st ++ [EvHead bucket key].
Proof.
  simpl. unfold exec_s3, next_fault. simpl.
  destruct (faults st) as [|[e|] fs] eqn:Hf; simpl;
    try destruct (objects st !! (bucket, key)); simpl; rewrite ?Hf;
    repeat split; reflexivity.
Qed.

End WorkerFacts.

Section WorkerAccounts.

Context {codec : Codec}.

Variables (src_bucket src_prefix dst_bucket dst_prefix : string).
Variables (batch_size total progress_step : Z).

Lemma tracks_amount (Inv : State -> Prop) (measure : State -> Z)
      (p : Prog unit) (n n' : Z) :
  n = n' -> tracks Inv measure p n' -> tracks Inv measure p n.
Proof. intros ->. exact id. Qed.

(** Whatever happens to a task, it bumps exactly one counter, once. *)
Lemma worker_tracks_both (skip_existing : bool) (src_key : string) :
  tracks (fun _ => True) (fun st => ok_counter st + err_counter st)
         (_worker src_bucket src_prefix dst_bucket dst_prefix batch_size skip_existing
                  total progress_step src_key) 1.
Proof.
  rewrite worker_unfold. cbv zeta. simpl. intros st _. split; [exact I|].
  apply (tracks_amount _ _ _ _ 1); [lia|].
  assert (Hfail : forall n, n = 1 ->
            tracks (fun _ => True) (fun st => ok_counter st + err_counter st)
              (Op (Enter "rewrite_repack_streaming")
                  (fun _ => Op (CountLocked ErrCounter progress_step total)
                     (fun _ => Op (PrintLine (ErrorLine src_key
                                    (dst_key_of src_prefix dst_prefix src_key)
                                    s3fs_error)) Ret))) n).
  { intros n ->. simpl. intros st1 _. split; [exact I|]. intros st2 _. split; [exact I|].
    intros st3 _. split; [exact I|].
    pose proof (count_locked_effect ErrCounter progress_step total st2) as (Ho & He & _).
    simpl in Ho, He. lia. }
  assert (Hskip : forall n, n = 1 ->
            tracks (fun _ => True) (fun st => ok_counter st + err_counter st)
              (perform (CountLocked OkCounter progress_step total)) n).
  { intros n ->. simpl. intros st1 _. split; [exact I|].
    pose proof (count_locked_effect OkCounter progress_step total st1) as (Ho & He & _).
    simpl in Ho, He. lia. }
  destruct skip_existing; simpl.
  - intros st1 _. split; [exact I|].
    pose proof (head_object_effect dst_bucket
                  (dst_key_of src_prefix dst_prefix src_key) st1) as (Ho & He & _).
    simpl in Ho, He.
    destruct (exec_s3 _ st1 _) as [[e|h] st2]; simpl in *;
      [apply Hfail | apply Hskip]; lia.
  - apply Hfail. reflexivity.
Qed.

(** A task that is not skipped bumps the failure counter. *)
Lemma worker_tracks_err_no_skip (src_key : string) :
  tracks (fun _ => True) err_counter
         (_worker src_bucket src_prefix dst_bucket dst_prefix batch_size false
                  total progress_step src_key) 1.
Proof.
  rewrite worker_unfold. cbv zeta. simpl. intros st _. split; [exact I|].
  intros st1 _. split; [exact I|]. intros st2 _. split; [exact I|].
  intros st3 _. split; [exact I|].
  pose proof (count_locked_effect ErrCounter progress_step total st2) as (_ & He & _).
  simpl in He. lia.
Qed.

Lemma worker_tracks_ok_no_skip (src_key : string) :
  tracks (fun _ => True) ok_counter
         (_worker src_bucket src_prefix dst_bucket dst_prefix batch_size false
                  total progress_step src_key) 0.
Proof.
  rewrite worker_unfold. cbv zeta. simpl. intros st _. split; [exact I|].
  intros st1 _. split; [exact I|]. intros st2 _. split; [exact I|].
  intros st3 _. split; [exact I|].
  pose proof (count_locked_effect ErrCounter progress_step total st2) as (Ho & _).
  simpl in Ho. lia.
Qed.

End WorkerAccounts.

(** ** The orchestrator *)

Section OrchestratorFacts.

Context {codec : Codec}.

Variables (sched : list nat) (src_bucket src_prefix dst_bucket dst_prefix : string).
Variables (max_workers : option Z) (batch_size : Z) (skip_existing : bool).

(** [repack_prefix] once the lister has returned at least one key. *)
Lemma repack_prefix_dispatch (keys : list string) (st st1 : State) :
  run (list_parquet_keys src_bucket (_normalize_prefix src_prefix) default_file_extensions) st
  = (inr keys, st1) ->
  keys <> [] ->
  let total := Z.of_nat (length keys) in
  let w := effective_workers max_workers (cpus st1) in
  let st2 := log (EvPrint (InfoStarting total src_bucket (_normalize_prefix src_prefix)
                                        dst_bucket (_normalize_prefix dst_prefix)
                                        w batch_size))
                 (set_counters 0 0 st1) in
  repack_prefix sched src_bucket src_prefix dst_bucket dst_prefix
                max_workers batch_size skip_existing st
  = match executor_map sched w
            (map (_worker src_bucket (_normalize_prefix src_prefix)
                          dst_bucket (_normalize_prefix dst_prefix)
                          batch_size skip_existing total (Z.max 1 (total / 10)))
                 keys)
            st2 with
    | (inl e, st3) => (inl e, st3)
    | (inr _, st3) =>
        (inr (ok_counter st3, err_counter st3),
         log (EvPrint (InfoFinished (ok_counter st3) (err_counter st3))) st3)
    end.
Proof.
  intros Hlist Hne total w st2. unfold repack_prefix. unmonad. rewrite Hlist.
  fold total. destruct (Z.eqb_spec total 0) as [H0|_].
  - destruct keys; [contradiction | unfold total in H0; simpl in H0; lia].
  - rewrite !run_perform. cbn [fst snd exec_op].
    change (cpus (set_counters 0 0 st1)) with (cpus st1). fold w. fold st2.
    destruct (executor_map sched w _ st2) as [[e|[]] st3]; reflexivity.
Qed.

(** Whatever the schedule, a run whose workers each account for [d] on a
    measure that starts at 0 ends with that measure at [d] per key. *)
Lemma repack_prefix_measure (Inv : State -> Prop) (measure : State -> Z) (d : Z)
      (keys : list string) (st st1 : State) :
  run (list_parquet_keys src_bucket (_normalize_prefix src_prefix) default_file_extensions) st
  = (inr keys, st1) ->
  keys <> [] ->
  0 < effective_workers max_workers (cpus st1) ->
  (forall l st', Inv (log l (set_counters 0 0 st')) <-> Inv st') ->
  (forall l st', measure (log l (set_counters 0 0 st')) = 0) ->
  Inv st1 ->
  (forall key, In key keys ->
     tracks Inv measure
            (_worker src_bucket (_normalize_prefix src_prefix)
                     dst_bucket (_normalize_prefix dst_prefix)
                     batch_size skip_existing (Z.of_nat (length keys))
                     (Z.max 1 (Z.of_nat (length keys) / 10)) key) d) ->
  exists st3,
    repack_prefix sched src_bucket src_prefix dst_bucket dst_prefix
                  max_workers batch_size skip_existing st
    = (inr (ok_counter st3, err_counter st3),
       log (EvPrint (InfoFinished (ok_counter st3) (err_counter st3))) st3) /\
    Inv st3 /\ measure st3 = d * Z.of_nat (length keys).
Proof.
  intros Hlist Hne Hw Hinv Hm HI Htr.
  rewrite (repack_prefix_dispatch keys st st1 Hlist Hne). cbv zeta.
  match goal with |- context [executor_map _ _ ?ts ?s] =>
    destruct (executor_map_tracked Inv measure d sched
                (effective_workers max_workers (cpus st1)) ts s) as (st3 & Hrun & HI3 & Hm3)
  end.
  - exact Hw.
  - apply Hinv. exact HI.
  - apply List.Forall_forall. intros t Ht. apply in_map_iff in Ht as (key & <- & Hin).
    apply Htr. exact Hin.
  - rewrite Hrun. exists st3. repeat split; [exact HI3|].
    rewrite Hm3, Hm, length_map. lia.
Qed.

End OrchestratorFacts.

(** C2.  Let the lister return [keys].  Whenever [repack_prefix] returns
    a pair [(ok, err)], whatever the interleaving of the workers,
    [ok + err] is the number of keys; it does return such a pair as soon
    as the worker count in effect is positive; and each task, skipped,
    succeeded or failed, raises the sum of the two counters by exactly
    one over every execution. *)
Theorem repack_prefix_counts_sum {codec : Codec} (sched : list nat)
        (src_bucket src_prefix dst_bucket dst_prefix : string)
        (max_workers : option Z) (batch_size : Z) (skip_existing : bool)
        (keys : list string) (st st1 : State) :
  run (list_parquet_keys src_bucket (_normalize_prefix src_prefix) default_file_extensions) st
  = (inr keys, st1) ->
  (forall ok err st',
      repack_prefix sched src_bucket src_prefix dst_bucket dst_prefix
                    max_workers batch_size skip_existing st = (inr (ok, err), st') ->
      ok + err = Z.of_nat (length keys)) /\
  (0 < effective_workers max_workers (cpus st) ->
   exists ok err st',
     repack_prefix sched src_bucket src_prefix dst_bucket dst_prefix
                   max_workers batch_size skip_existing st = (inr (ok, err), st')) /\
  (forall total progress_step key,
      tracks (fun _ => True) (fun s => ok_counter s + err_counter s)
             (_worker src_bucket (_normalize_prefix src_prefix)
                      dst_bucket (_normalize_prefix dst_prefix)
                      batch_size skip_existing total progress_step key) 1).
Proof.
  intros Hlist.
  assert (Htask : forall total progress_step key,
             tracks (fun _ => True) (fun s => ok_counter s + err_counter s)
                    (_worker src_bucket (_normalize_prefix src_prefix)
                             dst_bucket (_normalize_prefix dst_prefix)
                             batch_size skip_existing total progress_step key) 1)
    by (intros; apply worker_tracks_both).
  destruct keys as [|key keys'] eqn:Hkeys.
  - rewrite (repack_prefix_empty_run sched src_bucket src_prefix dst_bucket dst_prefix
               max_workers batch_size skip_existing st st1 Hlist).
    split; [|split; [|exact Htask]].
    + intros ok err st'' Heq. injection Heq as <- <- _. reflexivity.
    + intros _. eauto.
  - rewrite <- Hkeys in *.
    assert (Hne : keys <> []) by (rewrite Hkeys; discriminate).
    pose proof (list_parquet_keys_effect _ _ _ _ _ _ Hlist)
      as (_ & _ & _ & _ & Hcpu & _ & _).
    destruct (Z.ltb_spec 0 (effective_workers max_workers (cpus st1))) as [Hw|Hw].
    + destruct (repack_prefix_measure sched src_bucket src_prefix dst_bucket dst_prefix
                  max_workers batch_size skip_existing
                  (fun _ => True) (fun s => ok_counter s + err_counter s) 1
                  keys st st1 Hlist Hne Hw) as (st3 & Hrun & _ & Hm).
      * intros; tauto.
      * reflexivity.
      * exact I.
      * intros k _. apply Htask.
      * rewrite Hrun. split; [|split; [|exact Htask]].
        -- intros ok err st' Heq. injection Heq as <- <- _. lia.
        -- intros _. eauto.
    + split; [|split; [|exact Htask]].
      * rewrite (repack_prefix_dispatch sched src_bucket src_prefix dst_bucket dst_prefix
                   max_workers batch_size skip_existing keys st st1 Hlist Hne).
        cbv zeta. unfold executor_map.
        destruct (Z.leb_spec (effective_workers max_workers (cpus st1)) 0); [|lia].
        discriminate.
      * rewrite <- Hcpu. lia.
Qed.

(** ** What one worker does, run on its own *)

Section WorkerRun.

Context {codec : Codec}.

Variables (src_bucket src_prefix dst_bucket dst_prefix : string).
Variables (batch_size total progress_step : Z).

Lemma probe_completes_log (bucket key : string) (ev : Event) (st : State) :
  probe_completes bucket key (log ev st) = probe_completes bucket key st.
Proof.
  unfold probe_completes. simpl. unfold exec_s3, next_fault. simpl.
  destruct (faults st) as [|[e|] fs]; simpl; try reflexivity;
    destruct (objects st !! (bucket, key)); reflexivity.
Qed.

(** The state a worker leaves behind. *)
Lemma worker_run (skip_existing : bool) (src_key : string) (st : State) :
  let dst_key := dst_key_of src_prefix dst_prefix src_key in
  let st0 := log (EvPrint (InfoFileStart src_bucket src_key dst_bucket dst_key)) st in
  let st1 := if skip_existing then snd (exec_op (HeadObject dst_bucket dst_key) st0)
             else st0 in
  run (_worker src_bucket src_prefix dst_bucket dst_prefix batch_size skip_existing
               total progress_step src_key) st
  = if skip_existing && probe_completes dst_bucket dst_key st
    then (inr tt, count_locked OkCounter progress_step total st1)
    else (inr tt,
          log (EvPrint (ErrorLine src_key dst_key s3fs_error))
              (count_locked ErrCounter progress_step total
                            (log (EvCall "rewrite_repack_streaming") st1))).
Proof.
  intros dst_key st0 st1. rewrite worker_unfold. fold dst_key.
  cbn [run exec_op]. fold st0. rewrite run_bind, should_skip_existing_run.
  rewrite <- (probe_completes_log dst_bucket dst_key
                (EvPrint (InfoFileStart src_bucket src_key dst_bucket dst_key)) st).
  fold st0. subst st1.
  destruct skip_existing; [|reflexivity].
  destruct (probe_completes dst_bucket dst_key st0); reflexivity.
Qed.

End WorkerRun.

(** C1.  A task that the existence check does not skip reaches the call of
    [rewrite_repack_streaming]; the call raises the [TypeError] for the
    keyword [s3fs] before the rewriter's body runs, so the task is recorded
    as failed: the failure counter goes up by one, the success counter and
    the object store stay as they were, nothing is downloaded or uploaded,
    and the error line names the [TypeError].  No task is recorded as
    succeeded through the rewrite. *)
Theorem worker_rewrite_path_always_fails {codec : Codec}
        (src_bucket src_prefix dst_bucket dst_prefix : string)
        (batch_size total progress_step : Z) (skip_existing : bool)
        (src_key : string) (st : State) :
  let dst_key := dst_key_of src_prefix dst_prefix src_key in
  skip_existing && probe_completes dst_bucket dst_key st = false ->
  exists st' evs,
    run (_worker src_bucket src_prefix dst_bucket dst_prefix batch_size skip_existing
                 total progress_step src_key) st = (inr tt, st') /\
    ok_counter st' = ok_counter st /\
    err_counter st' = err_counter st + 1 /\
    objects st' = objects st /\
    trace st' = trace st ++ evs /\
    In (EvCall "rewrite_repack_streaming") evs /\
    In (EvPrint (ErrorLine src_key dst_key s3fs_error)) evs /\
    (forall b k, ~ In (EvDownload b k) evs /\ ~ In (EvUpload b k) evs).
Proof.
  intros dst_key Hskip.
  rewrite worker_run. fold dst_key. rewrite Hskip.
  set (st0 := log (EvPrint (InfoFileStart src_bucket src_key dst_bucket dst_key)) st).
  set (st1 := if skip_existing then snd (exec_op (HeadObject dst_bucket dst_key) st0) else st0).
  assert (H1 : ok_counter st1 = ok_counter st /\ err_counter st1 = err_counter st /\
               objects st1 = objects st /\
               exists evs1, trace st1 = trace st ++ evs1 /\
                            forallb (fun ev => negb (is_rewrite_event ev)) evs1 = true).
  { subst st1. destruct skip_existing.
    - pose proof (head_object_effect dst_bucket dst_key st0) as (Ho & He & Hob & _ & _ & Ht).
      cbv zeta in *. rewrite Ho, He, Hob, Ht. repeat split.
      eexists [_; _]. subst st0. simpl. rewrite <- app_assoc. split; reflexivity.
    - repeat split. eexists [_]. split; reflexivity. }
  destruct H1 as (Ho1 & He1 & Hob1 & evs1 & Ht1 & Hev1).
  pose proof (count_locked_effect ErrCounter progress_step total
                (log (EvCall "rewrite_repack_streaming") st1))
    as (Ho & He & Hob & _ & _ & evs2 & Ht2 & Hev2).
  cbv zeta in *. simpl in Ho, He, Hob, Ht2.
  eexists. exists (evs1 ++ [EvCall "rewrite_repack_streaming"] ++ evs2
                        ++ [EvPrint (ErrorLine src_key dst_key s3fs_error)]).
  split; [reflexivity|]. simpl. rewrite Ho, He, Hob, Ht2, Ht1, Ho1, He1, Hob1.
  repeat split; try lia.
  - rewrite <- !app_assoc. reflexivity.
  - apply in_or_app. right. left. reflexivity.
  - apply in_or_app. right. right. apply in_or_app. right. left. reflexivity.
  - intros Hin. apply in_app_or in Hin as [Hin|[Hin|Hin]]; try discriminate.
    + rewrite forallb_forall in Hev1. apply Hev1 in Hin. discriminate.
    + apply in_app_or in Hin as [Hin|[Hin|[]]]; try discriminate.
      rewrite forallb_forall in Hev2. apply Hev2 in Hin. discriminate.
  - intros Hin. apply in_app_or in Hin as [Hin|[Hin|Hin]]; try discriminate.
    + rewrite forallb_forall in Hev1. apply Hev1 in Hin. discriminate.
    + apply in_app_or in Hin as [Hin|[Hin|[]]]; try discriminate.
      rewrite forallb_forall in Hev2. apply Hev2 in Hin. discriminate.
Qed.

(** ** Runs in which every destination exists, runs in which none is skipped *)

Section WholeRuns.

Context {codec : Codec}.

Variables (src_bucket src_prefix dst_bucket dst_prefix : string).
Variables (batch_size total progress_step : Z).

Lemma head_object_there (bucket key : string) (o : S3Object) (st : State) :
  faults st = [] -> objects st !! (bucket, key) = Some o ->
  exec_op (HeadObject bucket key) st
  = (inr {| ContentType := content_type o |}, log (EvHead bucket key) st).
Proof.
  intros Hf Ho. simpl. unfold exec_s3, next_fault. simpl. rewrite Hf. simpl.
  rewrite Ho. reflexivity.
Qed.

Lemma destinations_exist_log (keys : list string) (ev : Event) (st : State) :
  destinations_exist dst_bucket src_prefix dst_prefix keys (log ev st) <->
  destinations_exist dst_bucket src_prefix dst_prefix keys st.
Proof. reflexivity. Qed.

Lemma destinations_exist_count (keys : list string) (c : Counter) (st : State) :
  destinations_exist dst_bucket src_prefix dst_prefix keys st ->
  destinations_exist dst_bucket src_prefix dst_prefix keys
                     (count_locked c progress_step total st).
Proof.
  pose proof (count_locked_effect c progress_step total st) as (_ & _ & Hob & _ & Hf & _).
  cbv zeta in *. unfold destinations_exist. rewrite Hob, Hf. exact id.
Qed.

(** With every destination in place and no failing call, a worker for
    one of the keys takes the skip branch, whatever the other workers
    do in between. *)
Lemma worker_tracks_skip (measure : State -> Z) (d : Z) (keys : list string)
      (src_key : string) :
  (forall ev st, measure (log ev st) = measure st) ->
  (forall st, measure (count_locked OkCounter progress_step total st) = measure st + d) ->
  In src_key keys ->
  tracks (destinations_exist dst_bucket src_prefix dst_prefix keys) measure
         (_worker src_bucket src_prefix dst_bucket dst_prefix batch_size true
                  total progress_step src_key) d.
Proof.
  intros Hlog Hcount Hin. rewrite worker_unfold. cbv zeta.
  cbn [tracks exec_op fst snd]. intros st HI.
  split; [apply destinations_exist_log; exact HI|].
  rewrite Hlog. cbn [_should_skip_existing negb]. unmonad.
  cbn [try_except bind call tracks]. intros st1 HI1.
  destruct HI1 as [Hf Hthere]. destruct (Hthere src_key Hin) as [o Ho].
  rewrite (head_object_there _ _ o st1 Hf Ho). cbn [fst snd].
  split; [apply destinations_exist_log; split; assumption|].
  rewrite Hlog. cbn [try_except bind perform tracks exec_op fst snd].
  intros st2 HI2. split; [apply destinations_exist_count; exact HI2|].
  rewrite Hcount. lia.
Qed.

End WholeRuns.

(** C5.  Worker: with [skip_existing] set and a probe of the destination
    that completes, the worker bumps the success counter and returns;
    the failure counter, the object store and the local files are
    untouched, and the trace shows no call of the rewriter and no
    transfer.  Run: the pair returned by [repack_prefix] is the pair of
    counters, with skipped tasks in the first: when no S3 call fails and
    every destination exists, under every interleaving the result is
    (number of keys, 0). *)
Theorem skipped_task_counts_as_success {codec : Codec}
        (src_bucket src_prefix dst_bucket dst_prefix : string) (batch_size : Z) :
  (forall (total progress_step : Z) (src_key : string) (st : State),
      let dst_key := dst_key_of src_prefix dst_prefix src_key in
      probe_completes dst_bucket dst_key st = true ->
      exists st' evs,
        run (_worker src_bucket src_prefix dst_bucket dst_prefix batch_size true
                     total progress_step src_key) st = (inr tt, st') /\
        ok_counter st' = ok_counter st + 1 /\
        err_counter st' = err_counter st /\
        objects st' = objects st /\
        local_files st' = local_files st /\
        trace st' = trace st ++ evs /\
        forallb (fun ev => negb (is_rewrite_event ev)) evs = true) /\
  (forall (sched : list nat) (max_workers : option Z) (keys : list string) (st st1 : State),
      run (list_parquet_keys src_bucket (_normalize_prefix src_prefix)
                             default_file_extensions) st = (inr keys, st1) ->
      destinations_exist dst_bucket (_normalize_prefix src_prefix)
                         (_normalize_prefix dst_prefix) keys st ->
      0 < effective_workers max_workers (cpus st) ->
      exists st',
        repack_prefix sched src_bucket src_prefix dst_bucket dst_prefix
                      max_workers batch_size true st
        = (inr (Z.of_nat (length keys), 0), st')).
Proof.
  split.
  - intros total progress_step src_key st dst_key Hprobe.
    rewrite worker_run. fold dst_key. rewrite Hprobe. cbn [andb].
    set (st0 := log (EvPrint (InfoFileStart src_bucket src_key dst_bucket dst_key)) st).
    pose proof (head_object_effect dst_bucket dst_key st0) as (Ho & He & Hob & Hl & _ & Ht).
    pose proof (count_locked_effect OkCounter progress_step total
                  (snd (exec_op (HeadObject dst_bucket dst_key) st0)))
      as (Ho2 & He2 & Hob2 & Hl2 & _ & evs2 & Ht2 & Hev2).
    cbv zeta in *.
    eexists. exists ([EvPrint (InfoFileStart src_bucket src_key dst_bucket dst_key);
                      EvHead dst_bucket dst_key] ++ evs2).
    split; [reflexivity|].
    rewrite Ho2, He2, Hob2, Hl2, Ht2, Ho, He, Hob, Hl, Ht. subst st0. simpl.
    repeat split; try lia.
    + rewrite <- !app_assoc. reflexivity.
    + exact Hev2.
  - intros sched max_workers keys st st1 Hlist [Hf Hthere] Hw.
    pose proof (list_parquet_keys_effect _ _ _ _ _ _ Hlist)
      as (Hob & _ & _ & _ & Hcpu & _ & Hf1).
    destruct keys as [|key0 keys0] eqn:Hkeys.
    { eexists. apply repack_prefix_empty_run. exact Hlist. }
    rewrite <- Hkeys in *.
    assert (Hne : keys <> []) by (rewrite Hkeys; discriminate).
    assert (HI1 : destinations_exist dst_bucket (_normalize_prefix src_prefix)
                                     (_normalize_prefix dst_prefix) keys st1).
    { split; [rewrite Hf1, Hf; reflexivity | rewrite Hob; exact Hthere]. }
    rewrite <- Hcpu in Hw.
    destruct (repack_prefix_measure sched src_bucket src_prefix dst_bucket dst_prefix
                max_workers batch_size true
                (destinations_exist dst_bucket (_normalize_prefix src_prefix)
                                    (_normalize_prefix dst_prefix) keys)
                ok_counter 1 keys st st1 Hlist Hne Hw) as (st3 & Hrun & _ & Hok).
    { intros; reflexivity. }
    { reflexivity. }
    { exact HI1. }
    { intros key Hin. apply worker_tracks_skip; try assumption; try reflexivity.
      intros s. apply (count_locked_effect OkCounter). }
    destruct (repack_prefix_measure sched src_bucket src_prefix dst_bucket dst_prefix
                max_workers batch_size true
                (destinations_exist dst_bucket (_normalize_prefix src_prefix)
                                    (_normalize_prefix dst_prefix) keys)
                err_counter 0 keys st st1 Hlist Hne Hw) as (st4 & Hrun4 & _ & Herr).
    { intros; reflexivity. }
    { reflexivity. }
    { exact HI1. }
    { intros key Hin. apply worker_tracks_skip; try assumption; try reflexivity.
      intros s. pose proof (count_locked_effect OkCounter
                              (Z.max 1 (Z.of_nat (length keys) / 10))
                              (Z.of_nat (length keys)) s) as (_ & He & _).
      cbv zeta in He. rewrite He. reflexivity. }
    rewrite Hrun4 in Hrun. injection Hrun as Hok_eq Herr_eq _.
    rewrite Hrun4.
    assert (E1 : ok_counter st4 = Z.of_nat (length keys)) by lia.
    assert (E2 : err_counter st4 = 0) by lia.
    rewrite E1, E2. eexists. reflexivity.
Qed.

(** The pool-level face of the failing call: with [skip_existing] off,
    every listed key is counted as failed, under every interleaving. *)
Lemma repack_prefix_without_skip_all_fail {codec : Codec} (sched : list nat)
      (src_bucket src_prefix dst_bucket dst_prefix : string)
      (max_workers : option Z) (batch_size : Z) (keys : list string) (st st1 : State) :
  run (list_parquet_keys src_bucket (_normalize_prefix src_prefix) default_file_extensions) st
  = (inr keys, st1) ->
  0 < effective_workers max_workers (cpus st) ->
  exists st',
    repack_prefix sched src_bucket src_prefix dst_bucket dst_prefix
                  max_workers batch_size false st
    = (inr (0, Z.of_nat (length keys)), st').
Proof.
  intros Hlist Hw.
  pose proof (list_parquet_keys_effect _ _ _ _ _ _ Hlist) as (_ & _ & _ & _ & Hcpu & _ & _).
  destruct keys as [|key0 keys0] eqn:Hkeys.
  { eexists. apply repack_prefix_empty_run. exact Hlist. }
  rewrite <- Hkeys in *.
  assert (Hne : keys <> []) by (rewrite Hkeys; discriminate).
  rewrite <- Hcpu in Hw.
  destruct (repack_prefix_measure sched src_bucket src_prefix dst_bucket dst_prefix
              max_workers batch_size false (fun _ => True) ok_counter 0
              keys st st1 Hlist Hne Hw) as (st3 & Hrun & _ & Hok);
    [intros; tauto | reflexivity | exact I
     | intros; apply worker_tracks_ok_no_skip |].
  destruct (repack_prefix_measure sched src_bucket src_prefix dst_bucket dst_prefix
              max_workers batch_size false (fun _ => True) err_counter 1
              keys st st1 Hlist Hne Hw) as (st4 & Hrun4 & _ & Herr);
    [intros; tauto | reflexivity | exact I
     | intros; apply worker_tracks_err_no_skip |].
  rewrite Hrun4 in Hrun. injection Hrun as Hok_eq Herr_eq _.
  rewrite Hrun4.
  assert (E1 : ok_counter st4 = 0) by lia.
  assert (E2 : err_counter st4 = Z.of_nat (length keys)) by lia.
  rewrite E1, E2. eexists. reflexivity.
Qed.

(** ** Instances on the sample worlds *)

Lemma worker_rewrite_path_always_fails_witness :
  exists st',
    run (_worker (codec := RefCodec.codec) "src" "in/" "dst" "out/" 2 true 1 1 "in/1.parquet")
        Sample.st1 = (inr tt, st') /\
    ok_counter st' = 0 /\ err_counter st' = 1.
Proof.
  destruct (worker_rewrite_path_always_fails (codec := RefCodec.codec)
              "src" "in/" "dst" "out/" 2 1 1 true "in/1.parquet" Sample.st1)
    as (st' & evs & Hrun & Hok & Herr & _).
  - vm_compute. reflexivity.
  - exists st'. split; [exact Hrun | split; [exact Hok | exact Herr]].
Defined.

Lemma repack_prefix_counts_sum_witness :
  exists ok err st',
    repack_prefix (codec := RefCodec.codec) [1; 0; 1; 1; 0; 0]%nat "src" "in" "dst" "out"
                  (Some 0) 2 true Sample.st3 = (inr (ok, err), st') /\
    ok + err = 2.
Proof.
  destruct (repack_prefix_counts_sum (codec := RefCodec.codec) [1; 0; 1; 1; 0; 0]%nat
              "src" "in" "dst" "out" (Some 0) 2 true
              (match fst (run (list_parquet_keys "src" "in/" default_file_extensions)
                              Sample.st3) with
               | inr keys => keys
               | inl _ => []
               end)
              Sample.st3
              (snd (run (list_parquet_keys "src" "in/" default_file_extensions) Sample.st3)))
    as (Hsum & Hret & _).
  - vm_compute. reflexivity.
  - destruct Hret as (ok & err & st' & Hrun); [vm_compute; reflexivity|].
    exists ok, err, st'. split; [exact Hrun|].
    pose proof (Hsum ok err st' Hrun) as Hs. vm_compute in Hs. exact Hs.
Defined.

Lemma skipped_task_counts_as_success_witness :
  exists st',
    run (_worker (codec := RefCodec.codec) "src" "in/" "dst" "out/" 2 true 1 1 "in/1.parquet")
        Sample.st2 = (inr tt, st') /\
    ok_counter st' = 1 /\ err_counter st' = 0.
Proof.
  destruct (proj1 (skipped_task_counts_as_success (codec := RefCodec.codec)
                     "src" "in/" "dst" "out/" 2)
                  1 1 "in/1.parquet" Sample.st2)
    as (st' & evs & Hrun & Hok & Herr & _).
  - vm_compute. reflexivity.
  - exists st'. split; [exact Hrun | split; [exact Hok | exact Herr]].
Defined.

(** ** The single-object rewriter *)

Section RewriterFacts.

Context {codec : Codec}.

(** An S3 call that returns went through: no fault was met, and the
    call acted on the state as it was, one event and one outcome later. *)
Lemma exec_s3_returns {X : Type} (ev : Event) (st st' : State) (x : X)
      (act : State -> (exn + X) * State) :
  exec_s3 ev st act = (inr x, st') ->
  exists st1, act st1 = (inr x, st') /\
              objects st1 = objects st /\ local_files st1 = local_files st /\
              writers st1 = writers st.
Proof.
  unfold exec_s3, next_fault. simpl.
  destruct (faults st) as [|[e|] fs]; simpl; intros H; try discriminate;
    eexists; (split; [exact H|]); repeat split; reflexivity.
Qed.

(** The cleanup of one temporary file never raises and leaves the
    object store alone. *)
Lemma remove_quietly_run (path : nat) (st : State) :
  exists st', run (remove_quietly path) st = (inr tt, st') /\ objects st' = objects st.
Proof.
  unfold remove_quietly. unmonad. rewrite run_try_except, run_bind, run_perform.
  cbn [fst snd exec_op]. destruct (bool_decide _).
  - rewrite run_call. cbn [exec_op].
    destruct (local_files st !! path); eexists; split; reflexivity.
  - eexists; split; reflexivity.
Qed.

Lemma cleanup_run (paths : list nat) (st : State) :
  exists st', run (for_each paths remove_quietly) st = (inr tt, st') /\
              objects st' = objects st.
Proof.
  revert st. induction paths as [|p paths IH]; intros st; cbn [for_each].
  - exists st. split; reflexivity.
  - rewrite run_bind. destruct (remove_quietly_run p st) as (st1 & -> & Ho1).
    destruct (IH st1) as (st' & -> & Ho'). exists st'. split; [reflexivity | congruence].
Qed.

(** The loop of lines 87-88: when it completes, every batch had the
    writer's schema and the writer holds the batches in the order of
    the iteration; nothing else changed. *)
Lemma write_batches_run (path : nat) (schema : Schema) (batches written : list RecordBatch)
      (st st' : State) :
  writers st !! path = Some (schema, written) ->
  run (for_each batches (fun batch => call (WriterWrite path batch))) st = (inr tt, st') ->
  Forall (fun b => batch_schema b = schema) batches /\
  writers st' !! path = Some (schema, written ++ batches) /\
  objects st' = objects st /\ local_files st' = local_files st.
Proof.
  revert written st. induction batches as [|b batches IH]; intros written st Hw;
    cbn [for_each run].
  - intros H. injection H as <-. rewrite app_nil_r. repeat split; [constructor | exact Hw].
  - rewrite run_bind, run_call. cbn [exec_op]. rewrite Hw.
    destruct (bool_decide_reflect (batch_schema b = schema)) as [Hs|Hs]; [|discriminate].
    intros H. apply IH with (written := written ++ [b]) in H.
    + destruct H as (Hall & Hw' & Ho & Hl). rewrite <- app_assoc in Hw'.
      repeat split; [constructor; assumption | exact Hw' | exact Ho | exact Hl].
    + simpl. apply lookup_insert_eq.
Qed.

End RewriterFacts.

Section RewriterRun.

Context {codec : Codec}.

(** A rewrite that returns found the source object, opened it, read it
    to the end, and left at the destination key the file its writer
    produced from the source's schema and exactly the batches read, in
    the order read. *)
Lemma rewrite_writes_batches_read (src_bucket src_key dst_bucket dst_key : string)
      (batch_size : Z) (st st' : State) :
  run (rewrite_repack_streaming src_bucket src_key dst_bucket dst_key batch_size) st
  = (inr tt, st') ->
  exists (source : S3Object) (schema : Schema) (batches : list RecordBatch),
    objects st !! (src_bucket, src_key) = Some source /\
    pq_open (body source) = inr schema /\
    pq_iter_batches batch_size (body source) = (batches, None) /\
    Forall (fun b => batch_schema b = schema) batches /\
    exists dest : S3Object,
      objects st' !! (dst_bucket, dst_key) = Some dest /\
      body dest = pq_encode schema batches.
Proof.
  unfold rewrite_repack_streaming. unmonad.
  rewrite run_bind, run_perform. cbn [fst snd exec_op].
  rewrite run_bind, run_perform. cbn [fst snd exec_op].
  change (next_tmp (set_next_tmp (S (next_tmp st))
                                 (set_local_files (insert (next_tmp st) blob_empty) st)))
    with (S (next_tmp st)).
  set (p := next_tmp st).
  set (sta := set_next_tmp (S (S p)) _).
  assert (Hobj_a : objects sta = objects st) by reflexivity.
  rewrite run_try_finally.
  match goal with |- context [run ?b sta] => destruct (run b sta) as [r s1] eqn:Hbody end.
  destruct (cleanup_run [p; S p] s1) as (s2 & Hc & Ho2). rewrite Hc.
  intros H. injection H as -> ->.
  (* download *)
  rewrite run_bind, run_call in Hbody. cbn [exec_op] in Hbody.
  destruct (exec_s3 (EvDownload src_bucket src_key) sta _) as [[e|[]] sd] eqn:Hdl;
    [discriminate|].
  apply exec_s3_returns in Hdl as (sx & Hact & Hox & _ & _).
  destruct (objects sx !! (src_bucket, src_key)) as [source|] eqn:Hsrc; [|discriminate].
  injection Hact as <-.
  (* open the local copy *)
  rewrite run_bind, run_call in Hbody. cbn [exec_op local_files set_local_files] in Hbody.
  rewrite lookup_insert_eq in Hbody.
  rewrite run_bind, run_lift in Hbody.
  destruct (pq_open (body source)) as [e|schema] eqn:Hopen; [discriminate|].
  (* the writer and the loop *)
  rewrite run_bind, run_perform in Hbody. cbn [fst snd exec_op] in Hbody.
  rewrite run_bind, run_try_finally in Hbody.
  match type of Hbody with context [run ?b ?s] =>
    match b with bind (for_each _ _) _ => destruct (run b s) as [r1 s3] eqn:Hloop end
  end.
  rewrite run_perform in Hbody. cbn [fst snd] in Hbody.
  destruct r1 as [e|[]]; [discriminate|].
  rewrite run_bind in Hloop.
  match type of Hloop with context [run ?b ?s] =>
    destruct (run b s) as [[e|[]] s3'] eqn:Hfor; [discriminate|]
  end.
  destruct (pq_iter_batches batch_size (body source)) as [batches stop] eqn:Hiter.
  cbn [fst snd] in *.
  destruct stop as [e|]; [discriminate|]. injection Hloop as ->.
  apply write_batches_run with (schema := schema) (written := []) in Hfor;
    [|apply lookup_insert_eq].
  destruct Hfor as (Hall & Hw3 & Ho3 & Hl3). cbn [app] in Hw3.
  (* close, upload *)
  cbn [exec_op] in Hbody. rewrite Hw3 in Hbody.
  rewrite run_call in Hbody. cbn [exec_op] in Hbody.
  apply exec_s3_returns in Hbody as (su & Hact & Hou & Hlu & _).
  simpl in Hlu, Hou.
  rewrite Hlu, lookup_insert_eq in Hact. injection Hact as <-.
  exists source, schema, batches.
  repeat split; try assumption.
  - rewrite <- Hobj_a, <- Hox. exact Hsrc.
  - eexists. rewrite Ho2. cbn [objects set_objects]. split; [apply lookup_insert_eq|].
    reflexivity.
Qed.

End RewriterRun.

(** Under the codec's contract, a rewrite that succeeds leaves a file
    that decodes as the source does. *)
Lemma rewrite_decodes_as_source {codec : Codec} {laws : CodecLaws codec}
      (src_bucket src_key dst_bucket dst_key : string)
      (batch_size : Z) (st st' : State) :
  1 <= batch_size ->
  run (rewrite_repack_streaming src_bucket src_key dst_bucket dst_key batch_size) st
  = (inr tt, st') ->
  exists (source dest : S3Object) (schema : Schema) (batches : list RecordBatch),
    objects st !! (src_bucket, src_key) = Some source /\
    objects st' !! (dst_bucket, dst_key) = Some dest /\
    pq_iter_batches batch_size (body source) = (batches, None) /\
    body dest = pq_encode schema batches /\
    pq_decode (body source) = Some (schema, rows_of batches) /\
    pq_decode (body dest) = pq_decode (body source).
Proof.
  intros Hn Hrun.
  apply rewrite_writes_batches_read in Hrun
    as (source & schema & batches & Hsrc & Hopen & Hiter & Hall & dest & Hdst & Hbody).
  exists source, dest, schema, batches.
  pose proof (read_decodes batch_size (body source) schema batches Hn Hopen Hiter Hall) as Hr.
  pose proof (write_decodes schema batches Hall) as Hw.
  repeat split; try assumption.
  rewrite Hbody, Hw, Hr. reflexivity.
Qed.

(** C3.  For a codec that keeps its contract and a batch size of at least
    one, a rewrite that succeeds leaves at the destination key the file
    written from the source's schema and exactly the batches read from
    the source, in the order read; decoding it gives the schema and the
    rows, in order, that decoding the source gives.  The batch size does
    not matter: a successful rewrite of the same source with any other
    batch size of at least one decodes to the same schema and rows. *)
Theorem rewrite_roundtrip {codec : Codec} {laws : CodecLaws codec}
        (src_bucket src_key dst_bucket dst_key : string)
        (batch_size : Z) (st st' : State) :
  1 <= batch_size ->
  run (rewrite_repack_streaming src_bucket src_key dst_bucket dst_key batch_size) st
  = (inr tt, st') ->
  exists (source dest : S3Object) (schema : Schema) (batches : list RecordBatch),
    objects st !! (src_bucket, src_key) = Some source /\
    objects st' !! (dst_bucket, dst_key) = Some dest /\
    pq_iter_batches batch_size (body source) = (batches, None) /\
    body dest = pq_encode schema batches /\
    pq_decode (body source) = Some (schema, rows_of batches) /\
    pq_decode (body dest) = pq_decode (body source) /\
    (forall (batch_size2 : Z) (st2 : State),
        1 <= batch_size2 ->
        run (rewrite_repack_streaming src_bucket src_key dst_bucket dst_key batch_size2) st
        = (inr tt, st2) ->
        exists dest2 : S3Object,
          objects st2 !! (dst_bucket, dst_key) = Some dest2 /\
          pq_decode (body dest2) = pq_decode (body dest)).
Proof.
  intros Hn Hrun.
  destruct (rewrite_decodes_as_source _ _ _ _ _ _ _ Hn Hrun)
    as (source & dest & schema & batches & Hsrc & Hdst & Hiter & Hbody & Hdec & Hsame).
  exists source, dest, schema, batches.
  repeat split; try assumption.
  intros n2 st2 Hn2 Hrun2.
  destruct (rewrite_decodes_as_source _ _ _ _ _ _ _ Hn2 Hrun2)
    as (source2 & dest2 & _ & _ & Hsrc2 & Hdst2 & _ & _ & _ & Hsame2).
  exists dest2. split; [exact Hdst2|].
  rewrite Hsrc in Hsrc2. injection Hsrc2 as <-.
  rewrite Hsame2, Hsame. reflexivity.
Qed.

(** ** The reference codec keeps the contract *)

Module RefCodecFacts.

Lemma concat_chunks_fuel {A : Type} (fuel n : nat) (l : list A) :
  (1 <= n)%nat -> (length l <= fuel)%nat -> concat (chunks_fuel fuel n l) = l.
Proof.
  intros Hn. revert l. induction fuel as [|fuel IH]; intros l Hlen.
  - destruct l; [reflexivity | simpl in Hlen; lia].
  - destruct l as [|x l]; [reflexivity|].
    cbn [chunks_fuel concat]. rewrite IH.
    + apply take_drop.
    + rewrite length_drop. simpl in *. lia.
Qed.

Lemma concat_chunks {A : Type} (n : nat) (l : list A) :
  (1 <= n)%nat -> concat (chunks n l) = l.
Proof. intros Hn. apply concat_chunks_fuel; [exact Hn | reflexivity]. Qed.

Lemma concat_chunked_groups {A : Type} (n : nat) (groups : list (list A)) :
  (1 <= n)%nat -> concat (flat_map (chunks n) groups) = concat groups.
Proof.
  intros Hn. induction groups as [|g groups IH]; [reflexivity|].
  cbn [flat_map concat]. rewrite concat_app, IH, concat_chunks by exact Hn.
  reflexivity.
Qed.

Lemma rows_of_batches (schema : Schema) (groups : list (list Row)) :
  rows_of (map (fun rs => {| batch_schema := schema; batch_rows := rs |}) groups)
  = concat groups.
Proof.
  unfold rows_of. rewrite map_map. cbn [batch_rows]. rewrite map_id. reflexivity.
Qed.

Lemma laws : CodecLaws RefCodec.codec.
Proof.
  split.
  - intros n [[schema groups]|] s bs Hn Hopen Hiter _; [|discriminate].
    cbn in Hopen, Hiter |- *. injection Hopen as <-.
    destruct (Z.leb_spec n 0); [lia|]. injection Hiter as <-.
    rewrite rows_of_batches, concat_chunked_groups by lia. reflexivity.
  - intros s bs _. reflexivity.
Qed.

End RefCodecFacts.

Lemma rewrite_roundtrip_witness :
  exists source dest : S3Object (codec := RefCodec.codec),
    objects Sample.st1 !! ("src", "in/1.parquet") = Some source /\
    objects (snd (run (rewrite_repack_streaming "src" "in/1.parquet" "dst" "out/1.parquet" 2)
                      Sample.st1)) !! ("dst", "out/1.parquet") = Some dest /\
    RefCodec.decode (body dest) = RefCodec.decode (body source).
Proof.
  destruct (rewrite_roundtrip (codec := RefCodec.codec) (laws := RefCodecFacts.laws)
              "src" "in/1.parquet" "dst" "out/1.parquet" 2 Sample.st1
              (snd (run (rewrite_repack_streaming "src" "in/1.parquet" "dst" "out/1.parquet" 2)
                        Sample.st1)))
    as (source & dest & schema & batches & Hsrc & Hdst & _ & _ & _ & Hdec & _).
  - lia.
  - vm_compute. reflexivity.
  - exists source, dest. split; [exact Hsrc | split; [exact Hdst | exact Hdec]].
Defined.

(** ** Scenarios *)

(** The destination of [src/sub/file.parquet] under [src/] and [dst2/]. *)
Example dst_key_scenario :
  dst_key_of "src/" "dst2/" "src/sub/file.parquet" = "dst2/sub/file.parquet".
Proof. reflexivity. Qed.

Example normalize_prefix_scenario :
  _normalize_prefix "/in" = "in/" /\ _normalize_prefix "in/" = "in/" /\
  _normalize_prefix "" = "".
Proof. repeat split; reflexivity. Qed.

(** The lister keeps the two Parquet keys of the third sample world and
    drops [in/readme.txt]. *)
Example lister_scenario :
  exists keys,
    fst (run (list_parquet_keys "src" "in" default_file_extensions) Sample.st3) = inr keys /\
    length keys = 2%nat /\
    In "in/1.parquet" keys /\ In "in/sub/2.parq" keys /\ ~ In "in/readme.txt" keys.
Proof.
  eexists. split; [vm_compute; reflexivity|].
  repeat split; [simpl; tauto | simpl; tauto |].
  simpl. intros [H|[H|[]]]; discriminate H.
Qed.

(** One object to migrate, nothing at the destination: the run counts it
    as failed, and the error line carries the [TypeError] of the call. *)
Example failing_run_scenario :
  exists st',
    repack_prefix (codec := RefCodec.codec) [] "src" "in" "dst" "out" (Some 0) 65536 true
                  Sample.st1 = (inr (0, 1), st') /\
    In (EvPrint (ErrorLine "in/1.parquet" "out/1.parquet" s3fs_error)) (trace st') /\
    objects st' = objects Sample.st1.
Proof.
  eexists. split; [vm_compute; reflexivity|].
  split; [simpl; tauto | reflexivity].
Qed.

(** The same call without the keyword [s3fs] goes through and uploads the
    rewritten object. *)
Example call_without_s3fs_scenario :
  exists st',
    run (call_rewrite_repack_streaming (codec := RefCodec.codec)
           [("src_bucket", PStr "src"); ("src_key", PStr "in/1.parquet");
            ("dst_bucket", PStr "dst"); ("dst_key", PStr "out/1.parquet");
            ("batch_size", PInt 2)])
        Sample.st1 = (inr tt, st') /\
    exists dest : S3Object (codec := RefCodec.codec),
      objects st' !! ("dst", "out/1.parquet") = Some dest /\
      RefCodec.decode (body dest) = RefCodec.decode Sample.file1.
Proof.
  eexists. split; [vm_compute; reflexivity|].
  eexists. split; vm_compute; reflexivity.
Qed.

(** * Further properties of the code *)

(** ** More on strings *)

Module PyStrMore.
Import PyStr.

Lemma length_app (s t : string) :
  String.length (s +:+ t) = (String.length s + String.length t)%nat.
Proof.
  induction s as [|c s IH]; [reflexivity|].
  rewrite PyStrFacts.append_cons. simpl. rewrite IH. reflexivity.
Qed.

Lemma slice_from_app (p s : string) : slice_from (String.length p) (p +:+ s) = s.
Proof.
  induction p as [|c p IH]; [reflexivity|].
  rewrite PyStrFacts.append_cons. simpl. exact IH.
Qed.

Lemma slice_to_app (p s : string) : slice_to (String.length p) (p +:+ s) = p.
Proof.
  induction p as [|c p IH]; [reflexivity|].
  rewrite PyStrFacts.append_cons. simpl. rewrite IH. reflexivity.
Qed.

Lemma endswith_app (s suf : string) : endswith (s +:+ suf) suf = true.
Proof.
  unfold endswith. rewrite length_app.
  replace (String.length s + String.length suf - String.length suf)%nat
    with (String.length s) by lia.
  rewrite slice_from_app, String.eqb_refl.
  destruct (Nat.leb_spec (String.length suf) (String.length s + String.length suf));
    [reflexivity | lia].
Qed.

Lemma app_nonempty (s : string) (c : ascii) (t : string) : s +:+ String c t <> "".
Proof. destruct s; discriminate. Qed.

Lemma startswith_slash_app (s t : string) :
  s <> "" -> startswith (s +:+ t) "/" = startswith s "/".
Proof. destruct s as [|c s]; [congruence | reflexivity]. Qed.

Lemma find_char_app (c : ascii) (b rest : string) :
  find_char c b = None -> find_char c (b +:+ String c rest) = Some (String.length b).
Proof.
  induction b as [|d b IH]; intros H.
  - simpl. rewrite Ascii.eqb_refl. reflexivity.
  - rewrite PyStrFacts.append_cons. simpl in *.
    destruct (Ascii.eqb c d); [discriminate|].
    destruct (find_char c b); [discriminate|]. rewrite IH by reflexivity. reflexivity.
Qed.

Lemma find_char_split (c : ascii) (s : string) (i : nat) :
  find_char c s = Some i ->
  s = slice_to i s +:+ String c (slice_from (S i) s) /\ find_char c (slice_to i s) = None.
Proof.
  revert i. induction s as [|d s IH]; intros i H; [discriminate|].
  simpl in H. destruct (Ascii.eqb c d) eqn:E.
  - injection H as <-. apply Ascii.eqb_eq in E. subst d. split; reflexivity.
  - destruct (find_char c s) as [j|] eqn:Hj; [|discriminate].
    injection H as <-. destruct (IH j eq_refl) as [Hs Hn].
    split.
    + simpl. rewrite PyStrFacts.append_cons. f_equal. exact Hs.
    + simpl. rewrite E, Hn. reflexivity.
Qed.

End PyStrMore.

(** ** Prefix normalisation *)

Lemma startswith_slash_cons (c : ascii) (s : string) :
  PyStr.startswith (String c s) "/" = Ascii.eqb "/" c.
Proof. cbn [PyStr.startswith]. destruct (Ascii.eqb "/" c); reflexivity. Qed.

Lemma startswith_double_slash (s : string) :
  PyStr.startswith ("/" +:+ s) "//" = PyStr.startswith s "/".
Proof. reflexivity. Qed.

Lemma ensure_no_leading_slash_cases (path : string) :
  (PyStr.startswith path "/" = false /\ _ensure_no_leading_slash path = path) \/
  (path = "/" +:+ _ensure_no_leading_slash path).
Proof.
  unfold _ensure_no_leading_slash. destruct path as [|c path]; [left; split; reflexivity|].
  rewrite startswith_slash_cons. destruct (Ascii.eqb "/" c) eqn:E.
  - right. apply Ascii.eqb_eq in E. subst c. reflexivity.
  - left. split; reflexivity.
Qed.

Lemma normalize_prefix_cases (prefix : string) :
  let p := _ensure_no_leading_slash prefix in
  (_normalize_prefix prefix = p /\ (p = "" \/ PyStr.endswith p "/" = true)) \/
  (_normalize_prefix prefix = p +:+ "/" /\ p <> "").
Proof.
  intros p. unfold _normalize_prefix. fold p.
  destruct (String.eqb_spec p "") as [->|Hne]; [left; split; [reflexivity | left; reflexivity]|].
  destruct (PyStr.endswith p "/") eqn:E; cbn [negb andb].
  - left. split; [reflexivity | right; reflexivity].
  - right. split; [reflexivity | exact Hne].
Qed.

Lemma normalize_prefix_empty_iff (prefix : string) :
  _normalize_prefix prefix = "" <-> prefix = "" \/ prefix = "/".
Proof.
  destruct (normalize_prefix_cases prefix) as [[-> Hp]|[-> Hne]]; cbv zeta in *.
  - destruct (ensure_no_leading_slash_cases prefix) as [[Hs ->]|Hs].
    + split; [intros ->; left; reflexivity | intros [->| ->]; [reflexivity | discriminate Hs]].
    + split.
      * intros H0. rewrite H0 in Hs. right. exact Hs.
      * intros [->| ->]; reflexivity.
  - split; [intros H; destruct (PyStrMore.app_nonempty _ _ _ H)|].
    intros [->| ->]; contradiction Hne; reflexivity.
Qed.

(** X1.  A normalised prefix is empty or ends with a slash, and it is
    empty only for the prefixes [""] and ["/"]. *)
Theorem normalize_prefix_shape (prefix : string) :
  (_normalize_prefix prefix = "" \/ PyStr.endswith (_normalize_prefix prefix) "/" = true) /\
  (_normalize_prefix prefix = "" <-> prefix = "" \/ prefix = "/").
Proof.
  split; [|apply normalize_prefix_empty_iff].
  destruct (normalize_prefix_cases prefix) as [[-> Hp]|[-> Hne]]; cbv zeta in *.
  - exact Hp.
  - right. apply PyStrMore.endswith_app.
Qed.

Lemma normalize_prefix_fixed (r : string) :
  PyStr.startswith r "/" = false -> (r = "" \/ PyStr.endswith r "/" = true) ->
  _normalize_prefix r = r.
Proof.
  intros Hs He. unfold _normalize_prefix, _ensure_no_leading_slash. rewrite Hs.
  destruct He as [->|He]; [reflexivity|]. rewrite He.
  destruct (String.eqb r ""); reflexivity.
Qed.

Lemma normalize_prefix_no_leading_slash (prefix : string) :
  PyStr.startswith prefix "//" = false ->
  PyStr.startswith (_normalize_prefix prefix) "/" = false.
Proof.
  intros H.
  assert (Hp : PyStr.startswith (_ensure_no_leading_slash prefix) "/" = false).
  { destruct (ensure_no_leading_slash_cases prefix) as [[Hs ->]|Hs]; [exact Hs|].
    rewrite Hs, startswith_double_slash in H. exact H. }
  destruct (normalize_prefix_cases prefix) as [[-> _]|[-> Hne]]; cbv zeta in *; [exact Hp|].
  rewrite PyStrMore.startswith_slash_app by exact Hne. exact Hp.
Qed.

(** X2.  Normalising twice is normalising once, for every prefix that
    does not start with two slashes. *)
Theorem normalize_prefix_idempotent (prefix : string) :
  PyStr.startswith prefix "//" = false ->
  _normalize_prefix (_normalize_prefix prefix) = _normalize_prefix prefix.
Proof.
  intros H. apply normalize_prefix_fixed.
  - apply normalize_prefix_no_leading_slash. exact H.
  - destruct (normalize_prefix_cases prefix) as [[-> Hp]|[-> Hne]]; cbv zeta in *;
      [exact Hp | right; apply PyStrMore.endswith_app].
Qed.

Lemma normalize_prefix_idempotent_witness :
  _normalize_prefix (_normalize_prefix "/data/in") = _normalize_prefix "/data/in".
Proof. apply normalize_prefix_idempotent. reflexivity. Defined.

(** Two non-empty prefixes of one key start with the same character. *)
Lemma common_first_char (key a b : string) :
  a <> "" -> b <> "" ->
  PyStr.startswith key a = true -> PyStr.startswith key b = true ->
  PyStr.startswith a "/" = PyStr.startswith b "/".
Proof.
  intros Ha Hb H1 H2.
  destruct a as [|x a]; [congruence|]. destruct b as [|y b]; [congruence|].
  destruct key as [|d key]; [discriminate|].
  cbn [PyStr.startswith] in H1, H2.
  destruct (Ascii.eqb_spec x d) as [->|]; [|discriminate].
  destruct (Ascii.eqb_spec y d) as [->|]; [|discriminate].
  rewrite !startswith_slash_cons. reflexivity.
Qed.

(** X3.  Only one leading slash is removed.  For a source prefix that
    starts with two slashes, the prefix the orchestrator strips from the
    keys still starts with a slash and differs from the prefix the lister
    lists under, so a key under the listed prefix is passed through whole:
    its destination is the destination prefix followed by the full key. *)
Theorem normalize_prefix_double_slash (rest dst_prefix key : string) :
  rest <> "" -> PyStr.startswith rest "/" = false ->
  let src_prefix := _normalize_prefix ("//" +:+ rest) in
  PyStr.startswith key (_normalize_prefix src_prefix) = true ->
  PyStr.startswith src_prefix "/" = true /\
  _normalize_prefix src_prefix <> src_prefix /\
  dst_key_of src_prefix dst_prefix key = dst_prefix +:+ key.
Proof.
  intros Hne Hrest src_prefix Hkey.
  assert (Hform : src_prefix = "/" +:+ rest \/ src_prefix = "/" +:+ rest +:+ "/").
  { subst src_prefix.
    destruct (normalize_prefix_cases ("//" +:+ rest)) as [[-> _]|[-> _]];
      [left | right]; reflexivity. }
  assert (Hs : PyStr.startswith src_prefix "/" = true)
    by (destruct Hform as [-> | ->]; reflexivity).
  assert (Hn : PyStr.startswith (_normalize_prefix src_prefix) "/" = false).
  { apply normalize_prefix_no_leading_slash.
    destruct rest as [|c rest]; [congruence|]. rewrite startswith_slash_cons in Hrest.
    destruct Hform as [-> | ->]; rewrite startswith_double_slash;
      rewrite ?PyStrFacts.append_cons, startswith_slash_cons; exact Hrest. }
  assert (Hne2 : _normalize_prefix src_prefix <> "").
  { intros H0. apply normalize_prefix_empty_iff in H0.
    destruct rest as [|c rest]; [congruence|].
    destruct Hform as [-> | ->]; destruct H0 as [H0|H0]; discriminate H0. }
  split; [exact Hs|]. split; [intros Heq; rewrite Heq in Hn; congruence|].
  unfold dst_key_of, _rel_key.
  destruct (String.eqb_spec src_prefix "") as [E|Hne1]; [reflexivity|].
  destruct (PyStr.startswith key src_prefix) eqn:Hk; [|reflexivity].
  pose proof (common_first_char key _ _ Hne1 Hne2 Hk Hkey) as Hc. congruence.
Qed.

Lemma normalize_prefix_double_slash_witness :
  dst_key_of (_normalize_prefix "//in") "out/" "in/1.parquet" = "out/in/1.parquet".
Proof.
  apply (normalize_prefix_double_slash "in" "out/" "in/1.parquet");
    [discriminate | reflexivity | reflexivity].
Defined.

(** ** More on the key mapper *)

(** X4.  A key made of the source prefix and a relative part is mapped to
    the destination prefix followed by that relative part; in particular
    mapping a prefix onto itself leaves such keys unchanged. *)
Theorem dst_key_reroots (src_prefix dst_prefix rel : string) :
  _rel_key (src_prefix +:+ rel) src_prefix = rel /\
  dst_key_of src_prefix dst_prefix (src_prefix +:+ rel) = dst_prefix +:+ rel /\
  dst_key_of src_prefix src_prefix (src_prefix +:+ rel) = src_prefix +:+ rel.
Proof.
  assert (H : _rel_key (src_prefix +:+ rel) src_prefix = rel).
  { unfold _rel_key. destruct (String.eqb_spec src_prefix "") as [->|_]; [reflexivity|].
    rewrite PyStrFacts.startswith_app. cbn [negb]. apply PyStrMore.slice_from_app. }
  unfold dst_key_of. rewrite H. repeat split; reflexivity.
Qed.

(** X5.  Every destination key starts with the destination prefix and
    ends with a part of the source key: whatever the source key, the
    object lands under the destination prefix. *)
Theorem dst_key_under_dst_prefix (src_prefix dst_prefix src_key : string) :
  PyStr.startswith (dst_key_of src_prefix dst_prefix src_key) dst_prefix = true /\
  exists stripped : string,
    src_key = stripped +:+ _rel_key src_key src_prefix /\
    (stripped = "" \/ stripped = src_prefix).
Proof.
  split; [apply PyStrFacts.startswith_app|].
  unfold _rel_key. destruct (String.eqb_spec src_prefix "") as [->|_].
  - exists "". split; [reflexivity | left; reflexivity].
  - destruct (PyStr.startswith src_key src_prefix) eqn:H; cbn [negb].
    + exists src_prefix. split; [apply PyStrFacts.startswith_split; exact H | right; reflexivity].
    + exists "". split; [reflexivity | left; reflexivity].
Qed.

(** ** The command line *)

Lemma parse_s3_uri_of_rest (rest : string) :
  _parse_s3_uri ("s3://" +:+ rest) =
  match PyStr.find_char "/" rest with
  | None => inr (rest, "")
  | Some i => inr (PyStr.slice_to i rest, PyStr.slice_from (S i) rest)
  end.
Proof.
  unfold _parse_s3_uri. rewrite PyStrFacts.startswith_app. cbn [negb].
  change (PyStr.slice_from 5 ("s3://" +:+ rest)) with rest.
  unfold PyStr.split1. destruct (PyStr.find_char "/" rest); reflexivity.
Qed.

(** X6.  Parsing inverts the composition of a location: for a bucket name
    without a slash, [s3://bucket/prefix] gives the bucket and the prefix
    (which may contain slashes), and [s3://bucket] gives the bucket and the
    empty prefix. *)
Theorem parse_s3_uri_roundtrip (bucket prefix : string) :
  PyStr.find_char "/" bucket = None ->
  _parse_s3_uri ("s3://" +:+ bucket +:+ "/" +:+ prefix) = inr (bucket, prefix) /\
  _parse_s3_uri ("s3://" +:+ bucket) = inr (bucket, "").
Proof.
  intros H. split.
  - rewrite parse_s3_uri_of_rest.
    change (bucket +:+ "/" +:+ prefix) with (bucket +:+ String "/" prefix).
    rewrite (PyStrMore.find_char_app "/" bucket prefix H).
    rewrite PyStrMore.slice_to_app.
    replace (PyStr.slice_from (S (String.length bucket)) (bucket +:+ String "/" prefix))
      with prefix; [reflexivity|].
    clear H. induction bucket as [|c b IH]; [reflexivity|].
    rewrite PyStrFacts.append_cons. cbn [String.length PyStr.slice_from]. exact IH.
  - rewrite parse_s3_uri_of_rest, H. reflexivity.
Qed.

Lemma parse_s3_uri_roundtrip_witness :
  _parse_s3_uri "s3://my-bucket/path/to/prefix" = inr ("my-bucket", "path/to/prefix").
Proof.
  apply (proj1 (parse_s3_uri_roundtrip "my-bucket" "path/to/prefix" eq_refl)).
Defined.

Lemma parse_s3_uri_rejects (uri : string) :
  PyStr.startswith uri "s3://" = false ->
  _parse_s3_uri uri = inl (ValueError "URI must start with s3://").
Proof. intros H. unfold _parse_s3_uri. rewrite H. reflexivity. Qed.

Lemma parse_s3_uri_accepted_form (uri : string) :
  PyStr.startswith uri "s3://" = true ->
  exists bucket prefix,
    _parse_s3_uri uri = inr (bucket, prefix) /\
    PyStr.find_char "/" bucket = None /\
    (uri = "s3://" +:+ bucket +:+ "/" +:+ prefix \/
     (prefix = "" /\ uri = "s3://" +:+ bucket)).
Proof.
  intros H. apply PyStrFacts.startswith_split in H.
  change (String.length "s3://") with 5%nat in H.
  set (rest := PyStr.slice_from 5 uri) in *. rewrite H. clear H.
  rewrite parse_s3_uri_of_rest.
  destruct (PyStr.find_char "/" rest) as [i|] eqn:Hf.
  - destruct (PyStrMore.find_char_split _ _ _ Hf) as [Hs Hn].
    exists (PyStr.slice_to i rest), (PyStr.slice_from (S i) rest).
    split; [reflexivity|]. split; [exact Hn|]. left.
    change ("s3://" +:+ rest = "s3://" +:+
            (PyStr.slice_to i rest +:+ String "/" (PyStr.slice_from (S i) rest))).
    rewrite <- Hs. reflexivity.
  - exists rest, "". split; [reflexivity|]. split; [exact Hf|]. right.
    split; reflexivity.
Qed.

(** X7.  A location is accepted exactly when it starts with [s3://]; every
    other one is refused with [ValueError].  An accepted location is the
    scheme, a bucket without slash, and either nothing more or a slash and
    the prefix. *)
Theorem parse_s3_uri_accepts (uri : string) :
  (PyStr.startswith uri "s3://" = false ->
   _parse_s3_uri uri = inl (ValueError "URI must start with s3://")) /\
  (PyStr.startswith uri "s3://" = true ->
   exists bucket prefix,
     _parse_s3_uri uri = inr (bucket, prefix) /\
     PyStr.find_char "/" bucket = None /\
     (uri = "s3://" +:+ bucket +:+ "/" +:+ prefix \/
      (prefix = "" /\ uri = "s3://" +:+ bucket))).
Proof.
  split; [apply parse_s3_uri_rejects | apply parse_s3_uri_accepted_form].
Qed.

Lemma parse_s3_uri_accepts_witness :
  _parse_s3_uri "https://bucket/x" = inl (ValueError "URI must start with s3://") /\
  exists bucket prefix, _parse_s3_uri "s3://bucket/" = inr (bucket, prefix).
Proof.
  split.
  - apply (proj1 (parse_s3_uri_accepts "https://bucket/x")). reflexivity.
  - destruct (proj2 (parse_s3_uri_accepts "s3://bucket/") eq_refl)
      as (bucket & prefix & H & _).
    exists bucket, prefix. exact H.
Defined.

(** X8.  When the source or the destination location does not start with
    [s3://], [main] raises [ValueError] before anything else happens: no
    line is printed, no S3 call is made, and no exit status is returned. *)
Theorem main_rejects_malformed_uri {codec : Codec} (sched : list nat) (args : Args)
        (st : State) :
  PyStr.startswith (src args) "s3://" = false \/
  PyStr.startswith (dst args) "s3://" = false ->
  main sched args st = (inl (ValueError "URI must start with s3://"), st).
Proof.
  intros H. unfold main. unmonad. rewrite !run_lift.
  destruct (PyStr.startswith (src args) "s3://") eqn:Hs.
  - destruct H as [H|H]; [discriminate|].
    destruct (parse_s3_uri_accepted_form (src args) Hs) as (b & p & -> & _).
    rewrite (parse_s3_uri_rejects (dst args) H). reflexivity.
  - rewrite (parse_s3_uri_rejects (src args) Hs). reflexivity.
Qed.

Lemma main_rejects_malformed_uri_witness :
  main (codec := RefCodec.codec) []
       {| src := "s3://src/in"; dst := "dst/out"; arg_batch_size := 65536;
          workers := 0; no_skip_existing := false |} Sample.st1
  = (inl (ValueError "URI must start with s3://"), Sample.st1).
Proof.
  apply (main_rejects_malformed_uri (codec := RefCodec.codec)). right. reflexivity.
Defined.

(** ** The lister *)





(** X10.  A listing that fails is fatal: [repack_prefix] raises the
    exception of the listing call; no task is started, the counters, the
    object store and the local files are untouched, and the listing call
    is the only thing in the trace. *)
Theorem repack_prefix_listing_failure {codec : Codec} (sched : list nat)
        (src_bucket src_prefix dst_bucket dst_prefix : string)
        (max_workers : option Z) (batch_size : Z) (skip_existing : bool)
        (st : State) (e : exn) (fs : list (option exn)) :
  faults st = Some e :: fs ->
  exists st',
    repack_prefix sched src_bucket src_prefix dst_bucket dst_prefix
                  max_workers batch_size skip_existing st = (inl e, st') /\
    objects st' = objects st /\ local_files st' = local_files st /\
    ok_counter st' = ok_counter st /\ err_counter st' = err_counter st /\
    trace st' = trace st ++
                [EvList src_bucket (_normalize_prefix (_normalize_prefix src_prefix))].
Proof.
  intros Hf. unfold repack_prefix, list_parquet_keys. unmonad.
  rewrite run_bind, run_call. cbn [exec_op]. unfold exec_s3, next_fault.
  cbn [faults log]. rewrite Hf. eexists. split; [reflexivity|].
  repeat split; reflexivity.
Qed.

Lemma repack_prefix_listing_failure_witness :
  fst (repack_prefix (codec := RefCodec.codec) [] "src" "in" "dst" "out" None 65536 true
                     (Sample.state_of [] [Some EndpointConnectionError]))
  = inl EndpointConnectionError.
Proof.
  destruct (repack_prefix_listing_failure (codec := RefCodec.codec) []
              "src" "in" "dst" "out" None 65536 true
              (Sample.state_of [] [Some EndpointConnectionError])
              EndpointConnectionError [] eq_refl) as (st' & -> & _).
  reflexivity.
Defined.

(** ** Worker count, continued *)

Lemma effective_workers_positive (max_workers cpu_count : option Z) :
  (forall n, cpu_count = Some n -> 0 <= n) ->
  1 <= effective_workers max_workers cpu_count.
Proof.
  intros Hcpu.
  assert (H : 4 <= Z.min 32 (4 * py_or_int cpu_count 4)).
  { unfold py_or_int. destruct cpu_count as [n|]; [|lia].
    specialize (Hcpu n eq_refl). destruct (Z.eqb_spec n 0); lia. }
  unfold effective_workers. destruct max_workers as [n|]; [|lia].
  destruct (Z.leb_spec n 0); lia.
Qed.

(** X11.  When [os.cpu_count()] answers [None] or a number that is not
    negative, the worker count in effect is at least 1, so the executor
    is never built with a size it refuses; a count chosen by default lies
    between 4 and 32. *)
Theorem effective_workers_bounds (max_workers cpu_count : option Z) :
  (forall n, cpu_count = Some n -> 0 <= n) ->
  1 <= effective_workers max_workers cpu_count /\
  ((max_workers = None \/ exists n, max_workers = Some n /\ n <= 0) ->
   4 <= effective_workers max_workers cpu_count <= 32).
Proof.
  intros Hcpu. split; [apply effective_workers_positive; exact Hcpu|].
  assert (H : 4 <= Z.min 32 (4 * py_or_int cpu_count 4) <= 32).
  { unfold py_or_int. destruct cpu_count as [n|]; [|lia].
    specialize (Hcpu n eq_refl). destruct (Z.eqb_spec n 0); lia. }
  intros [-> | [n [-> Hn]]]; unfold effective_workers; [exact H|].
  destruct (Z.leb_spec n 0); [exact H | lia].
Qed.

Lemma effective_workers_bounds_witness :
  1 <= effective_workers (Some 0) (Some 1) /\ 4 <= effective_workers None (Some 64) <= 32.
Proof.
  assert (H1 : forall n, Some 1 = Some n -> 0 <= n) by (intros n H; injection H as <-; lia).
  assert (H64 : forall n, Some 64 = Some n -> 0 <= n) by (intros n H; injection H as <-; lia).
  split.
  - apply (proj1 (effective_workers_bounds (Some 0) (Some 1) H1)).
  - apply (proj2 (effective_workers_bounds None (Some 64) H64)). left. reflexivity.
Defined.

(** ** Whole runs, continued *)

Section TrackedRuns.

Context {codec : Codec}.

Variables (sched : list nat) (src_bucket src_prefix dst_bucket dst_prefix : string).
Variables (max_workers : option Z) (batch_size : Z) (skip_existing : bool).

(** The state in which the pool starts. *)
Lemma repack_prefix_tracked (Inv : State -> Prop) (measure : State -> Z) (d : Z)
      (keys : list string) (st st1 : State) :
  run (list_parquet_keys src_bucket (_normalize_prefix src_prefix) default_file_extensions) st
  = (inr keys, st1) ->
  keys <> [] ->
  0 < effective_workers max_workers (cpus st1) ->
  let total := Z.of_nat (length keys) in
  let st2 := log (EvPrint (InfoStarting total src_bucket (_normalize_prefix src_prefix)
                                        dst_bucket (_normalize_prefix dst_prefix)
                                        (effective_workers max_workers (cpus st1))
                                        batch_size))
                 (set_counters 0 0 st1) in
  Inv st2 ->
  (forall key, In key keys ->
     tracks Inv measure
            (_worker src_bucket (_normalize_prefix src_prefix)
                     dst_bucket (_normalize_prefix dst_prefix)
                     batch_size skip_existing total (Z.max 1 (total / 10)) key) d) ->
  exists st3,
    repack_prefix sched src_bucket src_prefix dst_bucket dst_prefix
                  max_workers batch_size skip_existing st
    = (inr (ok_counter st3, err_counter st3),
       log (EvPrint (InfoFinished (ok_counter st3) (err_counter st3))) st3) /\
    Inv st3 /\ measure st3 = measure st2 + d * total.
Proof.
  intros Hlist Hne Hw total st2 HI Htr.
  rewrite (repack_prefix_dispatch sched src_bucket src_prefix dst_bucket dst_prefix
             max_workers batch_size skip_existing keys st st1 Hlist Hne).
  cbv zeta. fold total. fold st2.
  match goal with |- context [executor_map _ _ ?ts ?s] =>
    destruct (executor_map_tracked Inv measure d sched
                (effective_workers max_workers (cpus st1)) ts s) as (st3 & Hrun & HI3 & Hm3)
  end.
  - exact Hw.
  - exact HI.
  - apply List.Forall_forall. intros t Ht. apply in_map_iff in Ht as (key & <- & Hin).
    apply Htr. exact Hin.
  - rewrite Hrun. exists st3. repeat split; [exact HI3|].
    rewrite Hm3, length_map. reflexivity.
Qed.

End TrackedRuns.

Section WorkerInvariants.

Context {codec : Codec}.

Variables (src_bucket src_prefix dst_bucket dst_prefix : string).
Variables (batch_size total progress_step : Z).

(** A progress block adds nothing to the trace, or one progress line. *)
Lemma count_locked_trace (c : Counter) (st : State) :
  trace (count_locked c progress_step total st) = trace st \/
  exists a b, trace (count_locked c progress_step total st)
              = trace st ++ [EvPrint (InfoProgress a b)].
Proof.
  unfold count_locked.
  destruct c; simpl;
    match goal with |- context [if ?b then _ else _] => destruct b end; simpl;
    first [left; reflexivity | right; eexists _, _; reflexivity].
Qed.

(** A worker keeps every property of the state that printing, probing
    and counting keep, and raises the sum of the counters by one. *)
Lemma worker_tracks_sum_inv (Inv : State -> Prop) (skip_existing : bool) (src_key : string) :
  (forall ev st, Inv st -> Inv (log ev st)) ->
  (forall b k st, Inv st -> Inv (snd (exec_op (HeadObject b k) st))) ->
  (forall c st, Inv st -> Inv (count_locked c progress_step total st)) ->
  tracks Inv (fun st => ok_counter st + err_counter st)
         (_worker src_bucket src_prefix dst_bucket dst_prefix batch_size skip_existing
                  total progress_step src_key) 1.
Proof.
  intros Hlog Hhead Hcount.
  rewrite worker_unfold. cbv zeta. simpl. intros st HI. split; [apply Hlog; exact HI|].
  apply (tracks_amount _ _ _ _ 1); [lia|].
  assert (Hfail : forall n, n = 1 ->
            tracks Inv (fun st => ok_counter st + err_counter st)
              (Op (Enter "rewrite_repack_streaming")
                  (fun _ => Op (CountLocked ErrCounter progress_step total)
                     (fun _ => Op (PrintLine (ErrorLine src_key
                                    (dst_key_of src_prefix dst_prefix src_key)
                                    s3fs_error)) Ret))) n).
  { intros n ->. simpl. intros st1 HI1. split; [apply Hlog; exact HI1|].
    intros st2 HI2. split; [apply Hcount; exact HI2|].
    intros st3 HI3. split; [apply Hlog; exact HI3|].
    pose proof (count_locked_effect ErrCounter progress_step total st2) as (Ho & He & _).
    simpl in Ho, He. lia. }
  assert (Hskip : forall n, n = 1 ->
            tracks Inv (fun st => ok_counter st + err_counter st)
              (perform (CountLocked OkCounter progress_step total)) n).
  { intros n ->. simpl. intros st1 HI1. split; [apply Hcount; exact HI1|].
    pose proof (count_locked_effect OkCounter progress_step total st1) as (Ho & He & _).
    simpl in Ho, He. lia. }
  destruct skip_existing; simpl.
  - intros st1 HI1.
    split; [exact (Hhead dst_bucket (dst_key_of src_prefix dst_prefix src_key) st1 HI1)|].
    pose proof (head_object_effect dst_bucket
                  (dst_key_of src_prefix dst_prefix src_key) st1) as (Ho & He & _).
    simpl in Ho, He.
    destruct (exec_s3 _ st1 _) as [[e|h] st2]; simpl in *;
      [apply Hfail | apply Hskip]; lia.
  - apply Hfail. reflexivity.
Qed.

(** The same for a measure that weighs the two counters and counts the
    events of the trace that pass a test: every path of a worker changes
    it by the same amount when the weights agree. *)
Lemma worker_tracks_count (f : Event -> bool) (a b g n : Z)
      (skip_existing : bool) (src_key : string) :
  let dst_key := dst_key_of src_prefix dst_prefix src_key in
  let m := fun st => a * ok_counter st + b * err_counter st
                     + g * count_events f (trace st) in
  (forall x y, f (EvPrint (InfoProgress x y)) = false) ->
  (forall x y, f (EvHead x y) = false) ->
  (forall x, f (EvCall x) = false) ->
  let start := if f (EvPrint (InfoFileStart src_bucket src_key dst_bucket dst_key))
               then g else 0 in
  let oops := if f (EvPrint (ErrorLine src_key dst_key s3fs_error)) then g else 0 in
  n = start + a -> n = start + b + oops ->
  tracks (fun _ => True) m
         (_worker src_bucket src_prefix dst_bucket dst_prefix batch_size skip_existing
                  total progress_step src_key) n.
Proof.
  intros dst_key m Hprog Hhd Hcall start oops Hskip_n Hfail_n.
  assert (Hsnoc : forall ev tr, count_events f (tr ++ [ev])
                                = count_events f tr + (if f ev then 1 else 0)).
  { intros ev tr. unfold count_events. rewrite List.filter_app, length_app. simpl.
    destruct (f ev); simpl; lia. }
  assert (Hmlog : forall ev st, m (log ev st) = m st + (if f ev then g else 0)).
  { intros ev st. unfold m. simpl. rewrite Hsnoc. destruct (f ev); lia. }
  assert (Hmhead : forall st, m (snd (exec_op (HeadObject dst_bucket dst_key) st)) = m st).
  { intros st. pose proof (head_object_effect dst_bucket dst_key st) as (Ho & He & _ & _ & _ & Ht).
    cbv zeta in *. unfold m. rewrite Ho, He, Ht, Hsnoc, Hhd. lia. }
  assert (Hmcount : forall c st,
             m (count_locked c progress_step total st)
             = m st + (match c with OkCounter => a | ErrCounter => b end)).
  { intros c st. pose proof (count_locked_effect c progress_step total st) as (Ho & He & _).
    cbv zeta in *. unfold m. rewrite Ho, He.
    destruct (count_locked_trace c st) as [-> | (x & y & ->)].
    - destruct c; lia.
    - rewrite Hsnoc, Hprog. destruct c; lia. }
  rewrite worker_unfold. cbv zeta. fold dst_key.
  cbn [tracks exec_op fst snd]. intros st _. split; [exact I|].
  rewrite Hmlog. fold start.
  assert (Hfail : forall k, k = b + oops ->
            tracks (fun _ => True) m
              (Op (Enter "rewrite_repack_streaming")
                  (fun _ => Op (CountLocked ErrCounter progress_step total)
                     (fun _ => Op (PrintLine (ErrorLine src_key dst_key s3fs_error)) Ret))) k).
  { intros k ->. cbn [tracks exec_op fst snd].
    intros st1 _. split; [exact I|]. intros st2 _. split; [exact I|].
    intros st3 _. split; [exact I|].
    rewrite !Hmlog, Hmcount, Hcall. fold oops. lia. }
  assert (Hskip : forall k, k = a ->
            tracks (fun _ => True) m (perform (CountLocked OkCounter progress_step total)) k).
  { intros k ->. cbn [perform tracks exec_op fst snd]. intros st1 _. split; [exact I|].
    rewrite Hmcount. lia. }
  destruct skip_existing; cbn [_should_skip_existing negb]; unmonad.
  - cbn [try_except bind call tracks]. intros st1 _. split; [exact I|].
    rewrite Hmhead.
    destruct (exec_op (HeadObject dst_bucket dst_key) st1) as [[e|h] st2];
      cbn [fst snd try_except bind]; [apply Hfail | apply Hskip]; lia.
  - cbn [bind]. apply Hfail. lia.
Qed.

End WorkerInvariants.

Lemma count_events_snoc (f : Event -> bool) (tr : list Event) (ev : Event) :
  count_events f (tr ++ [ev]) = count_events f tr + (if f ev then 1 else 0).
Proof.
  unfold count_events. rewrite List.filter_app, length_app. simpl.
  destruct (f ev); simpl; lia.
Qed.

(** The lister reads: whatever its outcome, the store, the local files
    and the counters are as before. *)
Lemma list_parquet_keys_frame {codec : Codec} (bucket prefix : string) (exts : list string)
      (r : exn + list string) (st st1 : State) :
  run (list_parquet_keys bucket prefix exts) st = (r, st1) ->
  objects st1 = objects st /\ local_files st1 = local_files st /\
  ok_counter st1 = ok_counter st /\ err_counter st1 = err_counter st.
Proof.
  unfold list_parquet_keys. unmonad. rewrite run_bind, run_call.
  pose proof (paginate_effect bucket (_normalize_prefix prefix) st) as H.
  destruct (exec_op (Paginate bucket (_normalize_prefix prefix)) st) as [[e|pages] st2];
    simpl in *; intros Heq; injection Heq as _ <-; tauto.
Qed.

(** X12.  Failures of single tasks never abort the run.  When the listing
    succeeds and [os.cpu_count()] answers [None] or a number that is not
    negative, [repack_prefix] returns a pair under every interleaving,
    whatever the store holds and whichever S3 calls fail, and each of the
    two counts lies between 0 and the number of keys. *)
Theorem repack_prefix_isolates_failures {codec : Codec} (sched : list nat)
        (src_bucket src_prefix dst_bucket dst_prefix : string)
        (max_workers : option Z) (batch_size : Z) (skip_existing : bool)
        (keys : list string) (st st1 : State) :
  run (list_parquet_keys src_bucket (_normalize_prefix src_prefix) default_file_extensions) st
  = (inr keys, st1) ->
  (forall n, cpus st = Some n -> 0 <= n) ->
  exists ok err st',
    repack_prefix sched src_bucket src_prefix dst_bucket dst_prefix
                  max_workers batch_size skip_existing st = (inr (ok, err), st') /\
    0 <= ok <= Z.of_nat (length keys) /\ 0 <= err <= Z.of_nat (length keys).
Proof.
  intros Hlist Hcpu.
  pose proof (list_parquet_keys_effect _ _ _ _ _ _ Hlist) as (_ & _ & _ & _ & Hc & _ & _).
  destruct keys as [|key0 keys0] eqn:Hkeys.
  { exists 0, 0. eexists. split; [apply repack_prefix_empty_run; exact Hlist|].
    simpl. lia. }
  rewrite <- Hkeys in *.
  assert (Hne : keys <> []) by (rewrite Hkeys; discriminate).
  assert (Hw : 0 < effective_workers max_workers (cpus st1)).
  { rewrite Hc. pose proof (effective_workers_positive max_workers (cpus st) Hcpu). lia. }
  destruct (repack_prefix_tracked sched src_bucket src_prefix dst_bucket dst_prefix
              max_workers batch_size skip_existing
              (fun s => 0 <= ok_counter s /\ 0 <= err_counter s)
              (fun s => ok_counter s + err_counter s) 1
              keys st st1 Hlist Hne Hw) as (st3 & Hrun & [Ho He] & Hm).
  - simpl. lia.
  - intros key _. apply worker_tracks_sum_inv.
    + intros ev s H. exact H.
    + intros b k s H. pose proof (head_object_effect b k s) as (E1 & E2 & _).
      cbv zeta in *. rewrite E1, E2. exact H.
    + intros c s H.
      pose proof (count_locked_effect c (Z.max 1 (Z.of_nat (length keys) / 10))
                    (Z.of_nat (length keys)) s) as (E1 & E2 & _).
      cbv zeta in *. rewrite E1, E2. destruct c; lia.
  - simpl in Hm. eexists _, _, _. split; [exact Hrun|]. lia.
Qed.

Lemma repack_prefix_isolates_failures_witness :
  exists ok err st',
    repack_prefix (codec := RefCodec.codec) [0; 1; 1; 0]%nat "src" "in" "dst" "out"
                  None 65536 false Sample.st3 = (inr (ok, err), st') /\
    0 <= ok <= 2 /\ 0 <= err <= 2.
Proof.
  destruct (repack_prefix_isolates_failures (codec := RefCodec.codec) [0; 1; 1; 0]%nat
              "src" "in" "dst" "out" None 65536 false
              (match fst (run (list_parquet_keys "src" "in/" default_file_extensions)
                              Sample.st3) with
               | inr keys => keys
               | inl _ => []
               end)
              Sample.st3
              (snd (run (list_parquet_keys "src" "in/" default_file_extensions) Sample.st3)))
    as (ok & err & st' & Hrun & Hok & Herr).
  - vm_compute. reflexivity.
  - intros n H. injection H as <-. lia.
  - exists ok, err, st'. split; [exact Hrun|].
    vm_compute in Hok, Herr. split; [exact Hok | exact Herr].
Defined.

(** X13.  A run that dispatched tasks ends with the summary line, and the
    counts in it are the pair returned. *)
Theorem repack_prefix_summary_last {codec : Codec} (sched : list nat)
        (src_bucket src_prefix dst_bucket dst_prefix : string)
        (max_workers : option Z) (batch_size : Z) (skip_existing : bool)
        (keys : list string) (st st1 st' : State) (ok err : Z) :
  run (list_parquet_keys src_bucket (_normalize_prefix src_prefix) default_file_extensions) st
  = (inr keys, st1) ->
  keys <> [] ->
  repack_prefix sched src_bucket src_prefix dst_bucket dst_prefix
                max_workers batch_size skip_existing st = (inr (ok, err), st') ->
  exists evs, trace st' = evs ++ [EvPrint (InfoFinished ok err)].
Proof.
  intros Hlist Hne.
  rewrite (repack_prefix_dispatch sched src_bucket src_prefix dst_bucket dst_prefix
             max_workers batch_size skip_existing keys st st1 Hlist Hne).
  cbv zeta.
  destruct (executor_map _ _ _ _) as [[e|[]] st3]; [discriminate|].
  intros H. injection H as <- <- <-. eexists. reflexivity.
Qed.

Lemma repack_prefix_summary_last_witness :
  exists evs,
    trace (snd (repack_prefix (codec := RefCodec.codec) [] "src" "in" "dst" "out"
                              (Some 0) 65536 true Sample.st2))
    = evs ++ [EvPrint (InfoFinished 1 0)].
Proof.
  apply (repack_prefix_summary_last (codec := RefCodec.codec) []
           "src" "in" "dst" "out" (Some 0) 65536 true ["in/1.parquet"] Sample.st2
           (snd (run (list_parquet_keys "src" "in/" default_file_extensions) Sample.st2))).
  - vm_compute. reflexivity.
  - discriminate.
  - vm_compute. reflexivity.
Defined.

(** The balance of a run for a measure that weighs the counters and
    counts the events passing a test [f] that only looks at the lines
    marking the start of a file and at the error lines. *)
Lemma repack_prefix_event_balance {codec : Codec} (sched : list nat)
      (src_bucket src_prefix dst_bucket dst_prefix : string)
      (max_workers : option Z) (batch_size : Z) (skip_existing : bool)
      (f : Event -> bool) (fs fe : bool) (a b g n : Z)
      (keys : list string) (st st1 st' : State) (ok err : Z) :
  (forall ev, f ev = match ev with
                     | EvPrint (InfoFileStart _ _ _ _) => fs
                     | EvPrint (ErrorLine _ _ _) => fe
                     | _ => false
                     end) ->
  n = (if fs then g else 0) + a ->
  n = (if fs then g else 0) + b + (if fe then g else 0) ->
  run (list_parquet_keys src_bucket (_normalize_prefix src_prefix) default_file_extensions) st
  = (inr keys, st1) ->
  repack_prefix sched src_bucket src_prefix dst_bucket dst_prefix
                max_workers batch_size skip_existing st = (inr (ok, err), st') ->
  a * ok + b * err + g * count_events f (trace st')
  = g * count_events f (trace st) + n * Z.of_nat (length keys).
Proof.
  intros Hf Hn1 Hn2 Hlist.
  pose proof (list_parquet_keys_effect _ _ _ _ _ _ Hlist) as (_ & _ & _ & _ & _ & Htr & _).
  destruct keys as [|key0 keys0] eqn:Hkeys.
  { rewrite (repack_prefix_empty_run sched src_bucket src_prefix dst_bucket dst_prefix
               max_workers batch_size skip_existing st st1 Hlist).
    intros H. injection H as <- <- <-. simpl trace.
    rewrite Htr, !count_events_snoc, !Hf. simpl. lia. }
  rewrite <- Hkeys in *.
  assert (Hne : keys <> []) by (rewrite Hkeys; discriminate).
  destruct (Z.ltb_spec 0 (effective_workers max_workers (cpus st1))) as [Hw|Hw].
  - destruct (repack_prefix_tracked sched src_bucket src_prefix dst_bucket dst_prefix
                max_workers batch_size skip_existing (fun _ => True)
                (fun s => a * ok_counter s + b * err_counter s
                          + g * count_events f (trace s)) n
                keys st st1 Hlist Hne Hw) as (st3 & Hrun & _ & Hm).
    + exact I.
    + intros key _. apply worker_tracks_count.
      * intros; rewrite Hf; reflexivity.
      * intros; rewrite Hf; reflexivity.
      * intros; rewrite Hf; reflexivity.
      * rewrite Hf. exact Hn1.
      * rewrite !Hf. exact Hn2.
    + rewrite Hrun. intros H. injection H as <- <- <-.
      simpl in Hm. simpl trace. rewrite Htr in Hm.
      rewrite !count_events_snoc, !Hf in Hm. rewrite count_events_snoc, Hf. lia.
  - rewrite (repack_prefix_dispatch sched src_bucket src_prefix dst_bucket dst_prefix
               max_workers batch_size skip_existing keys st st1 Hlist Hne).
    cbv zeta. unfold executor_map.
    destruct (Z.leb_spec (effective_workers max_workers (cpus st1)) 0); [|lia].
    discriminate.
Qed.

(** X14.  Every failure is reported: under every interleaving, the number
    of error lines printed during a run is the failure count returned. *)
Theorem repack_prefix_error_lines {codec : Codec} (sched : list nat)
        (src_bucket src_prefix dst_bucket dst_prefix : string)
        (max_workers : option Z) (batch_size : Z) (skip_existing : bool)
        (keys : list string) (st st1 st' : State) (ok err : Z) :
  run (list_parquet_keys src_bucket (_normalize_prefix src_prefix) default_file_extensions) st
  = (inr keys, st1) ->
  repack_prefix sched src_bucket src_prefix dst_bucket dst_prefix
                max_workers batch_size skip_existing st = (inr (ok, err), st') ->
  count_events is_error_line (trace st') = count_events is_error_line (trace st) + err.
Proof.
  intros Hlist Hrun.
  pose proof (repack_prefix_event_balance sched src_bucket src_prefix dst_bucket dst_prefix
                max_workers batch_size skip_existing is_error_line false true
                0 1 (-1) 0 keys st st1 st' ok err) as H.
  cbv beta iota in H. specialize (H ltac:(intros [[]| | | | | |]; reflexivity)
                                     eq_refl eq_refl Hlist Hrun). lia.
Qed.

Lemma repack_prefix_error_lines_witness :
  count_events is_error_line
    (trace (snd (repack_prefix (codec := RefCodec.codec) [1; 0; 0]%nat "src" "in" "dst" "out"
                               (Some 0) 65536 true Sample.st3)))
  = 0 + 1.
Proof.
  apply (repack_prefix_error_lines (codec := RefCodec.codec) [1; 0; 0]%nat
           "src" "in" "dst" "out" (Some 0) 65536 true
           (match fst (run (list_parquet_keys "src" "in/" default_file_extensions)
                           Sample.st3) with
            | inr keys => keys
            | inl _ => []
            end)
           Sample.st3
           (snd (run (list_parquet_keys "src" "in/" default_file_extensions) Sample.st3))
           _ 1 1).
  - vm_compute. reflexivity.
  - vm_compute. reflexivity.
Defined.

(** X15.  One task per key: under every interleaving, the number of lines
    marking the start of a file printed during a run is the number of
    keys listed. *)
Theorem repack_prefix_one_start_per_key {codec : Codec} (sched : list nat)
        (src_bucket src_prefix dst_bucket dst_prefix : string)
        (max_workers : option Z) (batch_size : Z) (skip_existing : bool)
        (keys : list string) (st st1 st' : State) (ok err : Z) :
  run (list_parquet_keys src_bucket (_normalize_prefix src_prefix) default_file_extensions) st
  = (inr keys, st1) ->
  repack_prefix sched src_bucket src_prefix dst_bucket dst_prefix
                max_workers batch_size skip_existing st = (inr (ok, err), st') ->
  count_events is_file_start (trace st')
  = count_events is_file_start (trace st) + Z.of_nat (length keys).
Proof.
  intros Hlist Hrun.
  pose proof (repack_prefix_event_balance sched src_bucket src_prefix dst_bucket dst_prefix
                max_workers batch_size skip_existing is_file_start true false
                0 0 1 1 keys st st1 st' ok err) as H.
  cbv beta iota in H. specialize (H ltac:(intros [[]| | | | | |]; reflexivity)
                                     eq_refl eq_refl Hlist Hrun). lia.
Qed.

Lemma repack_prefix_one_start_per_key_witness :
  count_events is_file_start
    (trace (snd (repack_prefix (codec := RefCodec.codec) [1; 0; 0]%nat "src" "in" "dst" "out"
                               (Some 0) 65536 true Sample.st3)))
  = 0 + 2.
Proof.
  apply (repack_prefix_one_start_per_key (codec := RefCodec.codec) [1; 0; 0]%nat
           "src" "in" "dst" "out" (Some 0) 65536 true
           (match fst (run (list_parquet_keys "src" "in/" default_file_extensions)
                           Sample.st3) with
            | inr keys => keys
            | inl _ => []
            end)
           Sample.st3
           (snd (run (list_parquet_keys "src" "in/" default_file_extensions) Sample.st3))
           _ 1 1).
  - vm_compute. reflexivity.
  - vm_compute. reflexivity.
Defined.

(** X16.  The last progress line is never missed: a run that dispatched
    tasks and returns has printed the progress line in which the number
    of processed files is the total, under every interleaving and for
    every total, whether or not it is a multiple of the progress step. *)
Theorem repack_prefix_final_progress {codec : Codec} (sched : list nat)
        (src_bucket src_prefix dst_bucket dst_prefix : string)
        (max_workers : option Z) (batch_size : Z) (skip_existing : bool)
        (keys : list string) (st st1 st' : State) (ok err : Z) :
  run (list_parquet_keys src_bucket (_normalize_prefix src_prefix) default_file_extensions) st
  = (inr keys, st1) ->
  keys <> [] ->
  repack_prefix sched src_bucket src_prefix dst_bucket dst_prefix
                max_workers batch_size skip_existing st = (inr (ok, err), st') ->
  In (EvPrint (InfoProgress (Z.of_nat (length keys)) (Z.of_nat (length keys)))) (trace st').
Proof.
  intros Hlist Hne.
  set (total := Z.of_nat (length keys)).
  assert (Hpos : 0 < total) by (unfold total; destruct keys; [congruence | simpl; lia]).
  destruct (Z.ltb_spec 0 (effective_workers max_workers (cpus st1))) as [Hw|Hw].
  - destruct (repack_prefix_tracked sched src_bucket src_prefix dst_bucket dst_prefix
                max_workers batch_size skip_existing
                (fun s => ok_counter s + err_counter s = total ->
                          In (EvPrint (InfoProgress total total)) (trace s))
                (fun s => ok_counter s + err_counter s) 1
                keys st st1 Hlist Hne Hw) as (st3 & Hrun & HI & Hm).
    + simpl. lia.
    + intros key _. apply worker_tracks_sum_inv.
      * intros ev s H Hs. simpl in *. apply in_or_app. left. apply H. exact Hs.
      * intros b k s H.
        pose proof (head_object_effect b k s) as (E1 & E2 & _ & _ & _ & Et).
        cbv zeta in *. rewrite E1, E2, Et. intros Hs. apply in_or_app. left.
        apply H. exact Hs.
      * intros c s _. fold total. unfold count_locked.
        set (s1 := match c with
                   | OkCounter => set_counters (ok_counter s + 1) (err_counter s) s
                   | ErrCounter => set_counters (ok_counter s) (err_counter s + 1) s
                   end).
        destruct (Z.eqb_spec (ok_counter s1 + err_counter s1) total) as [E|E].
        -- rewrite orb_true_r. intros _. simpl. apply in_or_app. right.
           rewrite E. left. reflexivity.
        -- destruct (_ || false); simpl; intros Hs; contradiction.
    + rewrite Hrun. intros H. injection H as <- <- <-.
      simpl in Hm. simpl. apply in_or_app. left. apply HI. fold total in Hm. lia.
  - rewrite (repack_prefix_dispatch sched src_bucket src_prefix dst_bucket dst_prefix
               max_workers batch_size skip_existing keys st st1 Hlist Hne).
    cbv zeta. unfold executor_map.
    destruct (Z.leb_spec (effective_workers max_workers (cpus st1)) 0); [|lia].
    discriminate.
Qed.

Lemma repack_prefix_final_progress_witness :
  In (EvPrint (InfoProgress 2 2))
     (trace (snd (repack_prefix (codec := RefCodec.codec) [1; 0; 0]%nat "src" "in" "dst" "out"
                                (Some 0) 65536 true Sample.st3))).
Proof.
  apply (repack_prefix_final_progress (codec := RefCodec.codec) [1; 0; 0]%nat
           "src" "in" "dst" "out" (Some 0) 65536 true
           ["in/sub/2.parq"; "in/1.parquet"]
           Sample.st3
           (snd (run (list_parquet_keys "src" "in/" default_file_extensions) Sample.st3))
           _ 1 1).
  - vm_compute. reflexivity.
  - discriminate.
  - vm_compute. reflexivity.
Defined.

(** X17.  As the code stands, a run never changes the object store and
    leaves no local file behind: whatever its outcome and under every
    interleaving, the objects and the local files after [repack_prefix]
    are those before.  (Tasks are skipped, or fail at the call of the
    rewriter before it downloads or uploads anything.) *)
Theorem repack_prefix_store_untouched {codec : Codec} (sched : list nat)
        (src_bucket src_prefix dst_bucket dst_prefix : string)
        (max_workers : option Z) (batch_size : Z) (skip_existing : bool)
        (st st' : State) (r : exn + Z * Z) :
  repack_prefix sched src_bucket src_prefix dst_bucket dst_prefix
                max_workers batch_size skip_existing st = (r, st') ->
  objects st' = objects st /\ local_files st' = local_files st.
Proof.
  destruct (run (list_parquet_keys src_bucket (_normalize_prefix src_prefix)
                                   default_file_extensions) st)
    as [[e|keys] st1] eqn:Hlist.
  - pose proof (list_parquet_keys_frame _ _ _ _ _ _ Hlist) as (Ho & Hl & _).
    unfold repack_prefix. unmonad. rewrite Hlist. intros H. injection H as _ <-.
    split; assumption.
  - pose proof (list_parquet_keys_frame _ _ _ _ _ _ Hlist) as (Ho & Hl & _).
    destruct keys as [|key0 keys0] eqn:Hkeys.
    { rewrite (repack_prefix_empty_run sched src_bucket src_prefix dst_bucket dst_prefix
                 max_workers batch_size skip_existing st st1 Hlist).
      intros H. injection H as _ <-. split; assumption. }
    rewrite <- Hkeys in *.
    assert (Hne : keys <> []) by (rewrite Hkeys; discriminate).
    destruct (Z.ltb_spec 0 (effective_workers max_workers (cpus st1))) as [Hw|Hw].
    + destruct (repack_prefix_tracked sched src_bucket src_prefix dst_bucket dst_prefix
                  max_workers batch_size skip_existing
                  (fun s => objects s = objects st /\ local_files s = local_files st)
                  (fun s => ok_counter s + err_counter s) 1
                  keys st st1 Hlist Hne Hw) as (st3 & Hrun & HI & _).
      * split; assumption.
      * intros key _. apply worker_tracks_sum_inv.
        -- intros ev s H. exact H.
        -- intros b k s H.
           pose proof (head_object_effect b k s) as (_ & _ & E1 & E2 & _).
           cbv zeta in *. rewrite E1, E2. exact H.
        -- intros c s H.
           pose proof (count_locked_effect c (Z.max 1 (Z.of_nat (length keys) / 10))
                         (Z.of_nat (length keys)) s) as (_ & _ & E1 & E2 & _).
           cbv zeta in *. rewrite E1, E2. exact H.
      * rewrite Hrun. intros H. injection H as _ <-. exact HI.
    + rewrite (repack_prefix_dispatch sched src_bucket src_prefix dst_bucket dst_prefix
                 max_workers batch_size skip_existing keys st st1 Hlist Hne).
      cbv zeta. unfold executor_map.
      destruct (Z.leb_spec (effective_workers max_workers (cpus st1)) 0); [|lia].
      intros Heq. injection Heq as _ <-. split; assumption.
Qed.

Lemma repack_prefix_store_untouched_witness :
  objects (snd (repack_prefix (codec := RefCodec.codec) [1; 0; 0]%nat "src" "in" "dst" "out"
                              (Some 0) 65536 false Sample.st3))
  = objects Sample.st3.
Proof.
  apply (repack_prefix_store_untouched (codec := RefCodec.codec) [1; 0; 0]%nat
           "src" "in" "dst" "out" (Some 0) 65536 false Sample.st3 _
           (fst (repack_prefix (codec := RefCodec.codec) [1; 0; 0]%nat "src" "in" "dst" "out"
                               (Some 0) 65536 false Sample.st3))).
  destruct (repack_prefix _ _ _ _ _ _ _ _ _); reflexivity.
Defined.

(** X18.  As the code stands, with [--no-skip-existing] a run that finds
    at least one key exits with status 2, under every interleaving and
    whatever the store holds: every task reaches the failing call. *)
Theorem main_no_skip_exits_2 {codec : Codec} (sched : list nat) (args : Args)
        (src_bucket src_prefix dst_bucket dst_prefix : string)
        (keys : list string) (st st1 : State) :
  _parse_s3_uri (src args) = inr (src_bucket, src_prefix) ->
  _parse_s3_uri (dst args) = inr (dst_bucket, dst_prefix) ->
  no_skip_existing args = true ->
  run (list_parquet_keys src_bucket (_normalize_prefix src_prefix) default_file_extensions) st
  = (inr keys, st1) ->
  keys <> [] ->
  (forall n, cpus st = Some n -> 0 <= n) ->
  exists st', main sched args st = (inr 2, st').
Proof.
  intros Hs Hd Hno Hlist Hne Hcpu.
  assert (Hw : 0 < effective_workers (Some (workers args)) (cpus st)).
  { pose proof (effective_workers_positive (Some (workers args)) (cpus st) Hcpu). lia. }
  destruct (repack_prefix_without_skip_all_fail sched src_bucket src_prefix
              dst_bucket dst_prefix (Some (workers args)) (arg_batch_size args)
              keys st st1 Hlist Hw) as (st2 & Hrun).
  unfold main. unmonad. rewrite !run_lift, Hs, Hd, Hno. cbn [fst snd negb].
  rewrite Hrun. rewrite run_perform. cbn [fst snd].
  destruct (Z.eqb_spec (Z.of_nat (length keys)) 0) as [E|_].
  - destruct keys; [congruence | simpl in E; lia].
  - eexists. reflexivity.
Qed.

Lemma main_no_skip_exits_2_witness :
  fst (main (codec := RefCodec.codec) [1; 0]%nat
            {| src := "s3://src/in"; dst := "s3://dst/out"; arg_batch_size := 65536;
               workers := 4; no_skip_existing := true |} Sample.st2) = inr 2.
Proof.
  destruct (main_no_skip_exits_2 (codec := RefCodec.codec) [1; 0]%nat
              {| src := "s3://src/in"; dst := "s3://dst/out"; arg_batch_size := 65536;
                 workers := 4; no_skip_existing := true |}
              "src" "in" "dst" "out" ["in/1.parquet"] Sample.st2
              (snd (run (list_parquet_keys "src" "in/" default_file_extensions) Sample.st2)))
    as (st' & ->).
  - reflexivity.
  - reflexivity.
  - reflexivity.
  - vm_compute. reflexivity.
  - discriminate.
  - intros n H. injection H as <-. lia.
  - reflexivity.
Defined.

(** ** The rewriter, continued *)

Section StagingFrames.

Context {codec : Codec}.

Variables (p q : nat).

Lemma staging_frame_refl (st : State) : staging_frame p q st st.
Proof. split; [reflexivity | intros; reflexivity]. Qed.

Lemma staging_frame_trans (s1 s2 s3 : State) :
  staging_frame p q s1 s2 -> staging_frame p q s2 s3 -> staging_frame p q s1 s3.
Proof.
  intros [Ho1 Hl1] [Ho2 Hl2]. split; [congruence|].
  intros path Hp Hq. rewrite Hl2, Hl1 by assumption. reflexivity.
Qed.

Lemma exec_s3_frame {X : Type} (ev : Event) (st : State)
      (act : State -> (exn + X) * State) (R : State -> State -> Prop) :
  (forall s, objects s = objects st -> local_files s = local_files st ->
             R st s /\ R st (snd (act s))) ->
  R st (snd (exec_s3 ev st act)).
Proof.
  intros H. unfold exec_s3, next_fault. simpl.
  destruct (faults st) as [|[e|] fs]; simpl.
  - exact (proj2 (H (log ev st) eq_refl eq_refl)).
  - exact (proj1 (H (set_faults fs (log ev st)) eq_refl eq_refl)).
  - exact (proj2 (H (set_faults fs (log ev st)) eq_refl eq_refl)).
Qed.

Lemma download_frame (bucket key : string) (st : State) :
  staging_frame p q st (snd (exec_op (DownloadFile bucket key p) st)).
Proof.
  cbn [exec_op]. apply exec_s3_frame. intros s Ho Hl.
  assert (Hs : staging_frame p q st s)
    by (split; [exact Ho | intros; rewrite Hl; reflexivity]).
  split; [exact Hs|].
  destruct (objects s !! (bucket, key)); simpl; [|exact Hs].
  split; [exact Ho|].
  intros path Hp _. simpl. rewrite lookup_insert_ne by congruence. rewrite Hl. reflexivity.
Qed.

Lemma read_local_state (path : nat) (st : State) : snd (exec_op (ReadLocal path) st) = st.
Proof. cbn [exec_op]. destruct (local_files st !! path); reflexivity. Qed.

Lemma writer_write_frame (path : nat) (batch : RecordBatch) (st : State) :
  objects (snd (exec_op (WriterWrite path batch) st)) = objects st /\
  local_files (snd (exec_op (WriterWrite path batch) st)) = local_files st.
Proof.
  cbn [exec_op]. destruct (writers st !! path) as [[schema written]|]; [|split; reflexivity].
  destruct (bool_decide _); split; reflexivity.
Qed.

Lemma write_batches_frame (path : nat) (batches : list RecordBatch)
      (r : exn + unit) (st st' : State) :
  run (for_each batches (fun batch => call (WriterWrite path batch))) st = (r, st') ->
  objects st' = objects st /\ local_files st' = local_files st.
Proof.
  revert st. induction batches as [|b batches IH]; intros st; cbn [for_each run].
  - intros H. injection H as _ <-. split; reflexivity.
  - rewrite run_bind, run_call.
    pose proof (writer_write_frame path b st) as [Ho Hl].
    destruct (exec_op (WriterWrite path b) st) as [[e|[]] s1]; cbn [snd] in *.
    + intros H. injection H as _ <-. split; assumption.
    + intros H. apply IH in H as [Ho' Hl']. split; congruence.
Qed.

Lemma writer_close_frame (st : State) :
  staging_frame p q st (snd (exec_op (WriterClose q) st)).
Proof.
  cbn [exec_op]. destruct (writers st !! q) as [[schema written]|];
    [|apply staging_frame_refl].
  split; [reflexivity|]. intros path _ Hq. simpl.
  rewrite lookup_insert_ne by congruence. reflexivity.
Qed.

(** An upload leaves the local files alone; it changes the store only
    when it returns, and then only at its key. *)
Lemma upload_effect (path : nat) (bucket key : string) (st : State) :
  local_files (snd (exec_op (UploadFile path bucket key) st)) = local_files st /\
  match fst (exec_op (UploadFile path bucket key) st) with
  | inl _ => objects (snd (exec_op (UploadFile path bucket key) st)) = objects st
  | inr _ => exists dest, objects (snd (exec_op (UploadFile path bucket key) st))
                          = <[(bucket, key) := dest]> (objects st)
  end.
Proof.
  cbn [exec_op]. unfold exec_s3, next_fault. simpl.
  destruct (faults st) as [|[e|] fs]; simpl; try (split; reflexivity);
    destruct (local_files st !! path); simpl; split; try reflexivity; eexists; reflexivity.
Qed.

(** Removing a temporary file. *)
Lemma remove_quietly_effect (path : nat) (st : State) :
  exists st', run (remove_quietly path) st = (inr tt, st') /\
              objects st' = objects st /\
              local_files st' = delete path (local_files st).
Proof.
  unfold remove_quietly. unmonad. rewrite run_try_except, run_bind, run_perform.
  cbn [fst snd exec_op]. destruct (bool_decide_reflect (is_Some (local_files st !! path)))
    as [[b Hb]|Hn].
  - rewrite run_call. cbn [exec_op]. rewrite Hb. eexists. repeat split; reflexivity.
  - exists st. repeat split; try reflexivity.
    symmetry. apply delete_id. destruct (local_files st !! path) eqn:E; [|reflexivity].
    contradiction Hn. eexists. reflexivity.
Qed.

End StagingFrames.

Section RewriterOutcome.

Context {codec : Codec}.

Variables (src_bucket src_key dst_bucket dst_key : string) (batch_size : Z).

(** Everything a rewrite can leave behind, whatever its result. *)
Lemma rewrite_outcome (st st' : State) (r : exn + unit) :
  run (rewrite_repack_streaming src_bucket src_key dst_bucket dst_key batch_size) st
  = (r, st') ->
  let p := next_tmp st in
  (forall path, path <> p -> path <> S p ->
                local_files st' !! path = local_files st !! path) /\
  local_files st' !! p = None /\ local_files st' !! S p = None /\
  match r with
  | inl _ => objects st' = objects st
  | inr _ => exists dest, objects st' = <[(dst_bucket, dst_key) := dest]> (objects st)
  end.
Proof.
  unfold rewrite_repack_streaming. unmonad.
  rewrite run_bind, run_perform. cbn [fst snd exec_op].
  rewrite run_bind, run_perform. cbn [fst snd exec_op].
  change (next_tmp (set_next_tmp (S (next_tmp st))
                                 (set_local_files (insert (next_tmp st) blob_empty) st)))
    with (S (next_tmp st)).
  set (p := next_tmp st).
  set (sta := set_next_tmp (S (S p)) _).
  assert (Hsta : staging_frame p (S p) st sta).
  { split; [reflexivity|]. intros path Hp Hq. subst sta. simpl.
    rewrite !lookup_insert_ne by congruence. reflexivity. }
  rewrite run_try_finally.
  match goal with |- context [run ?b sta] => destruct (run b sta) as [rb s1] eqn:Hbody end.
  (* the cleanup *)
  cbn [for_each]. rewrite run_bind.
  destruct (remove_quietly_effect p s1) as (sc1 & -> & Hoc1 & Hlc1).
  rewrite run_bind.
  destruct (remove_quietly_effect (S p) sc1) as (sc2 & -> & Hoc2 & Hlc2).
  cbn [run]. intros H. injection H as <- <-.
  assert (Hbody' : staging_frame p (S p) sta s1 /\
                   match rb with
                   | inl _ => True
                   | inr _ => False
                   end \/
                   (forall path, path <> p -> path <> S p ->
                                 local_files s1 !! path = local_files sta !! path) /\
                   exists dest, rb = inr tt /\
                                objects s1 = <[(dst_bucket, dst_key) := dest]> (objects sta)).
  { (* download *)
    rewrite run_bind, run_call in Hbody.
    pose proof (download_frame p (S p) src_bucket src_key sta) as Fd.
    destruct (exec_op (DownloadFile src_bucket src_key p) sta) as [[e|[]] sd];
      cbn [snd] in Fd.
    { injection Hbody as <- <-. left. split; [exact Fd | exact I]. }
    (* open the local copy *)
    rewrite run_bind, run_call in Hbody.
    pose proof (read_local_state p sd) as Er.
    destruct (exec_op (ReadLocal p) sd) as [[e|pf] sr]; cbn [snd] in Er; subst sr.
    { injection Hbody as <- <-. left. split; [exact Fd | exact I]. }
    rewrite run_bind, run_lift in Hbody.
    destruct (pq_open pf) as [e|schema].
    { injection Hbody as <- <-. left. split; [exact Fd | exact I]. }
    (* the writer and the loop *)
    rewrite run_bind, run_perform in Hbody. cbn [fst snd exec_op] in Hbody.
    set (sw := set_writers _ sd) in Hbody.
    assert (Fw : staging_frame p (S p) sta sw).
    { apply (staging_frame_trans p (S p) _ sd); [exact Fd|].
      split; [reflexivity | intros; reflexivity]. }
    rewrite run_bind, run_try_finally in Hbody.
    match type of Hbody with context [run ?b sw] =>
      destruct (run b sw) as [r1 s3] eqn:Hloop
    end.
    assert (F3 : staging_frame p (S p) sta s3).
    { apply (staging_frame_trans p (S p) _ sw); [exact Fw|].
      rewrite run_bind in Hloop.
      match type of Hloop with context [run ?b sw] =>
        destruct (run b sw) as [rf sf] eqn:Hfor
      end.
      apply write_batches_frame in Hfor as [Ho Hl].
      assert (Es : s3 = sf).
      { destruct rf as [e|[]]; [injection Hloop as _ <-; reflexivity|].
        destruct (snd (pq_iter_batches batch_size pf));
          injection Hloop as _ <-; reflexivity. }
      subst s3. split; [exact Ho | intros; rewrite Hl; reflexivity]. }
    rewrite run_perform in Hbody. cbn [fst snd] in Hbody.
    pose proof (writer_close_frame p (S p) s3) as Fc.
    set (sc := snd (exec_op (WriterClose (S p)) s3)) in *.
    assert (F4 : staging_frame p (S p) sta sc)
      by (apply (staging_frame_trans p (S p) _ s3); assumption).
    destruct r1 as [e|[]].
    { injection Hbody as <- <-. left. split; [exact F4 | exact I]. }
    (* upload *)
    rewrite run_call in Hbody.
    pose proof (upload_effect (S p) dst_bucket dst_key sc) as [Hul Huo].
    rewrite Hbody in Hul, Huo. cbn [fst snd] in Hul, Huo.
    destruct F4 as [Ho4 Hl4].
    destruct rb as [e|[]].
    - left. split; [|exact I]. split; [congruence|].
      intros path Hp Hq. rewrite Hul. apply Hl4; assumption.
    - right. split.
      + intros path Hp Hq. rewrite Hul. apply Hl4; assumption.
      + destruct Huo as [dest Hd]. exists dest. split; [reflexivity|]. rewrite Hd, Ho4.
        reflexivity. }
  destruct Hsta as [Hoa Hla].
  assert (Hlocal : forall path, path <> p -> path <> S p ->
                                local_files s1 !! path = local_files st !! path).
  { intros path Hp Hq.
    destruct Hbody' as [[[_ Hl] _]|[Hl _]]; rewrite Hl, Hla by assumption; reflexivity. }
  split; [|split; [|split]].
  - intros path Hp Hq. rewrite Hlc2, Hlc1.
    rewrite !lookup_delete_ne by congruence. apply Hlocal; assumption.
  - rewrite Hlc2, Hlc1. rewrite lookup_delete_ne by lia. apply lookup_delete_eq.
  - rewrite Hlc2. apply lookup_delete_eq.
  - rewrite Hoc2, Hoc1. destruct Hbody' as [[[Ho _] Hr]|[_ (dest & -> & Ho)]].
    + destruct rb; [congruence | contradiction].
    + exists dest. rewrite Ho, Hoa. reflexivity.
Qed.

End RewriterOutcome.



(** X20.  A rewrite is all or nothing on the store: when it raises, the
    object store is exactly as before, and when it returns, the only
    object that may differ is the one at the destination key.  No other
    key, the source included when it is another key, is ever touched. *)
Theorem rewrite_touches_only_destination {codec : Codec}
        (src_bucket src_key dst_bucket dst_key : string) (batch_size : Z)
        (st st' : State) (r : exn + unit) :
  run (rewrite_repack_streaming src_bucket src_key dst_bucket dst_key batch_size) st
  = (r, st') ->
  (forall e, r = inl e -> objects st' = objects st) /\
  (forall k, k <> (dst_bucket, dst_key) -> objects st' !! k = objects st !! k).
Proof.
  intros H. apply rewrite_outcome in H as (_ & _ & _ & Ho). cbv zeta in *.
  destruct r as [e|u].
  - split; [intros _ _; exact Ho | intros k _; rewrite Ho; reflexivity].
  - destruct Ho as [dest ->]. split; [discriminate|].
    intros k Hk. apply lookup_insert_ne. congruence.
Qed.

Lemma rewrite_touches_only_destination_witness :
  objects (snd (run (rewrite_repack_streaming (codec := RefCodec.codec)
                       "src" "in/1.parquet" "dst" "out/1.parquet" 2) Sample.st1))
          !! ("src", "in/1.parquet")
  = objects Sample.st1 !! ("src", "in/1.parquet").
Proof.
  refine (proj2 (rewrite_touches_only_destination (codec := RefCodec.codec)
                   "src" "in/1.parquet" "dst" "out/1.parquet" 2 Sample.st1 _ _ _)
                ("src", "in/1.parquet") _).
  - apply surjective_pairing.
  - discriminate.
Defined.

Section RewriterErrors.

Context {codec : Codec}.

Variables (src_bucket src_key dst_bucket dst_key : string) (batch_size : Z).

(** Batches of the writer's schema are all accepted. *)
Lemma write_batches_ok (path : nat) (schema : Schema) (batches written : list RecordBatch)
      (st : State) :
  writers st !! path = Some (schema, written) ->
  Forall (fun b => batch_schema b = schema) batches ->
  exists st', run (for_each batches (fun batch => call (WriterWrite path batch))) st
              = (inr tt, st').
Proof.
  intros Hw Hall. revert written st Hw.
  induction Hall as [|b batches Hb _ IH]; intros written st Hw; cbn [for_each run].
  - eexists. reflexivity.
  - rewrite run_bind, run_call. cbn [exec_op]. rewrite Hw.
    rewrite bool_decide_eq_true_2 by exact Hb.
    apply (IH (written ++ [b])). simpl. apply lookup_insert_eq.
Qed.

(** The rewrite up to the point where the local copy is read. *)
Lemma rewrite_reads_source (source : S3Object) (st : State) :
  faults st = [] ->
  objects st !! (src_bucket, src_key) = Some source ->
  exists sd,
    writers sd = writers st /\
    run (rewrite_repack_streaming src_bucket src_key dst_bucket dst_key batch_size) st
    = match
        run (schema ← lift (pq_open (body source));
             perform (WriterOpen (S (next_tmp st)) schema);;
             try_finally
               (for_each (fst (pq_iter_batches batch_size (body source)))
                         (fun batch => call (WriterWrite (S (next_tmp st)) batch));;
                match snd (pq_iter_batches batch_size (body source)) with
                | Some e => Raise e
                | None => mret tt
                end)
               (perform (WriterClose (S (next_tmp st))));;
             call (UploadFile (S (next_tmp st)) dst_bucket dst_key)) sd
      with
      | (rb, s1) =>
          match run (for_each [next_tmp st; S (next_tmp st)] remove_quietly) s1 with
          | (inl e, s2) => (inl e, s2)
          | (inr _, s2) => (rb, s2)
          end
      end.
Proof.
  intros Hf Hsrc. unfold rewrite_repack_streaming. unmonad.
  rewrite run_bind, run_perform. cbn [fst snd exec_op].
  rewrite run_bind, run_perform. cbn [fst snd exec_op].
  change (next_tmp (set_next_tmp (S (next_tmp st))
                                 (set_local_files (insert (next_tmp st) blob_empty) st)))
    with (S (next_tmp st)).
  rewrite run_try_finally, run_bind, run_call.
  cbn [exec_op]. unfold exec_s3, next_fault. cbn [faults log set_next_tmp set_local_files].
  rewrite Hf. cbn [objects log set_next_tmp set_local_files set_faults]. rewrite Hsrc.
  rewrite run_bind, run_call. cbn [exec_op local_files set_local_files].
  rewrite lookup_insert_eq.
  eexists. split; [|reflexivity]. reflexivity.
Qed.

End RewriterErrors.

(** X21.  Errors of the codec surface unchanged.  With the source object
    in place and no failing S3 call: when the local copy cannot be opened
    as Parquet, the rewrite raises the codec's exception; when reading
    the batches stops with an exception after some batches, the rewrite
    raises that exception (the writer having been closed); in both cases
    nothing is uploaded. *)
Theorem rewrite_codec_errors {codec : Codec}
        (src_bucket src_key dst_bucket dst_key : string) (batch_size : Z)
        (source : S3Object) (st : State) (e : exn) :
  faults st = [] ->
  objects st !! (src_bucket, src_key) = Some source ->
  pq_open (body source) = inl e \/
  (exists schema batches,
      pq_open (body source) = inr schema /\
      pq_iter_batches batch_size (body source) = (batches, Some e) /\
      Forall (fun b => batch_schema b = schema) batches) ->
  exists st',
    run (rewrite_repack_streaming src_bucket src_key dst_bucket dst_key batch_size) st
    = (inl e, st') /\
    objects st' = objects st.
Proof.
  intros Hf Hsrc Hcase.
  destruct (run (rewrite_repack_streaming src_bucket src_key dst_bucket dst_key batch_size) st)
    as [r st'] eqn:Hrun.
  assert (Hr : r = inl e).
  { destruct (rewrite_reads_source src_bucket src_key dst_bucket dst_key batch_size
                source st Hf Hsrc) as (sd & Hwd & Heq).
    rewrite Heq in Hrun. clear Heq. unmonad.
    rewrite run_bind, run_lift in Hrun.
    destruct Hcase as [Hopen | (schema & batches & Hopen & Hiter & Hall)]; rewrite Hopen in Hrun.
    - destruct (cleanup_run [next_tmp st; S (next_tmp st)] sd) as (s2 & Hc & _).
      rewrite Hc in Hrun. injection Hrun as <- _. reflexivity.
    - rewrite run_bind, run_perform in Hrun. cbn [fst snd exec_op] in Hrun.
      rewrite run_bind, run_try_finally, run_bind in Hrun.
      rewrite Hiter in Hrun. cbn [fst snd] in Hrun.
      match type of Hrun with context [run (for_each batches ?f) ?s] =>
        destruct (write_batches_ok (S (next_tmp st)) schema batches [] s) as (s3 & Hfor);
          [apply lookup_insert_eq | exact Hall |]
      end.
      rewrite Hfor in Hrun. cbn [run] in Hrun.
      rewrite run_perform in Hrun. cbn [fst snd] in Hrun.
      match type of Hrun with context [run (for_each [_; _] remove_quietly) ?s] =>
        destruct (cleanup_run [next_tmp st; S (next_tmp st)] s) as (s2 & Hc & _)
      end.
      rewrite Hc in Hrun. injection Hrun as <- _. reflexivity. }
  subst r. exists st'. split; [reflexivity|].
  apply rewrite_outcome in Hrun as (_ & _ & _ & Ho). exact Ho.
Qed.

Lemma rewrite_codec_errors_witness :
  exists st',
    run (rewrite_repack_streaming (codec := RefCodec.codec)
           "src" "other/readme.txt" "dst" "out/readme.txt" 2) Sample.st0
    = (inl (ArrowInvalid "Parquet magic bytes not found in footer"), st') /\
    objects st' = objects Sample.st0.
Proof.
  apply (rewrite_codec_errors (codec := RefCodec.codec)
           "src" "other/readme.txt" "dst" "out/readme.txt" 2 (Sample.obj None) Sample.st0).
  - reflexivity.
  - vm_compute. reflexivity.
  - left. reflexivity.
Defined.

(** ** The metadata copy and the existence check *)

Section MetadataFacts.

Context {codec : Codec}.

(** A metadata copy keeps the local files and the counters; in the store
    it changes at most the content type of the object at its key. *)
Lemma copy_object_effect (bucket key ct : string) (st : State) :
  let st1 := snd (exec_op (CopyObject bucket key ct) st) in
  local_files st1 = local_files st /\
  ok_counter st1 = ok_counter st /\ err_counter st1 = err_counter st /\
  (objects st1 = objects st \/
   exists o, objects st !! (bucket, key) = Some o /\
             objects st1 = <[(bucket, key) := {| body := body o; content_type := Some ct |}]>
                             (objects st)).
Proof.
  cbn [exec_op]. unfold exec_s3, next_fault. simpl.
  destruct (faults st) as [|[e|] fs]; simpl;
    try (repeat split; left; reflexivity);
    destruct (objects st !! (bucket, key)) as [o|] eqn:Ho; simpl;
    repeat split; first [left; reflexivity | right; exists o; split; reflexivity].
Qed.

Lemma copy_metadata_run (src_bucket src_key dst_bucket dst_key : string) (st : State) :
  exists st',
    run (_copy_metadata_if_available src_bucket src_key dst_bucket dst_key) st
    = (inr tt, st') /\
    local_files st' = local_files st /\
    ok_counter st' = ok_counter st /\ err_counter st' = err_counter st /\
    (objects st' = objects st \/
     exists o ct, objects st !! (dst_bucket, dst_key) = Some o /\
                  objects st'
                  = <[(dst_bucket, dst_key) := {| body := body o; content_type := Some ct |}]>
                      (objects st)).
Proof.
  unfold _copy_metadata_if_available. unmonad.
  rewrite run_try_except, run_bind, run_call.
  pose proof (head_object_effect src_bucket src_key st) as (Ho & He & Hob & Hl & _).
  destruct (exec_op (HeadObject src_bucket src_key) st) as [[e|head] s1]; cbn [snd] in *.
  - exists s1. cbn [run]. repeat split; try assumption. left. exact Hob.
  - rewrite run_call.
    pose proof (copy_object_effect dst_bucket dst_key
                  (py_or_str (ContentType head) "application/octet-stream") s1)
      as (Hl2 & Ho2 & He2 & Hob2). cbv zeta in *.
    destruct (exec_op (CopyObject dst_bucket dst_key _) s1) as [[e|[]] s2]; cbn [snd] in *;
      exists s2; cbn [run]; (split; [reflexivity|]);
      (split; [congruence|]); (split; [congruence|]); (split; [congruence|]);
      (destruct Hob2 as [E | (o & E1 & E2)];
       [left; congruence | right; exists o; eexists; rewrite <- Hob, E2; split;
                           [exact E1 | reflexivity]]).
Qed.

End MetadataFacts.

(** X22.  The metadata copy is best effort: it never raises, whatever
    fails; it keeps the key set of the store and the body of every
    object, and the only object whose metadata may change is the
    destination. *)
Theorem copy_metadata_never_raises {codec : Codec}
        (src_bucket src_key dst_bucket dst_key : string) (st : State) :
  exists st',
    run (_copy_metadata_if_available src_bucket src_key dst_bucket dst_key) st
    = (inr tt, st') /\
    (forall k, body <$> objects st' !! k = body <$> objects st !! k) /\
    (forall k, k <> (dst_bucket, dst_key) -> objects st' !! k = objects st !! k) /\
    local_files st' = local_files st.
Proof.
  destruct (copy_metadata_run src_bucket src_key dst_bucket dst_key st)
    as (st' & Hrun & Hl & _ & _ & Hob).
  exists st'. split; [exact Hrun|].
  destruct Hob as [-> | (o & ct & Ho & ->)].
  - repeat split; try reflexivity. exact Hl.
  - repeat split; [| |exact Hl].
    + intros k. destruct (decide (k = (dst_bucket, dst_key))) as [->|Hk].
      * rewrite lookup_insert_eq, Ho. reflexivity.
      * rewrite lookup_insert_ne by congruence. reflexivity.
    + intros k Hk. apply lookup_insert_ne. congruence.
Qed.

(** X23.  When no call fails and both objects exist, the metadata copy
    gives the destination the content type of the source, or
    [application/octet-stream] when the source has none or an empty one,
    and keeps the destination's body. *)
Theorem copy_metadata_sets_content_type {codec : Codec}
        (src_bucket src_key dst_bucket dst_key : string)
        (source dest : S3Object) (st : State) :
  faults st = [] ->
  objects st !! (src_bucket, src_key) = Some source ->
  objects st !! (dst_bucket, dst_key) = Some dest ->
  objects (snd (run (_copy_metadata_if_available src_bucket src_key dst_bucket dst_key) st))
          !! (dst_bucket, dst_key)
  = Some {| body := body dest;
            content_type := Some (py_or_str (content_type source)
                                            "application/octet-stream") |}.
Proof.
  intros Hf Hs Hd. unfold _copy_metadata_if_available. unmonad.
  rewrite run_try_except, run_bind, run_call.
  rewrite (head_object_there src_bucket src_key source st Hf Hs).
  rewrite run_call. cbn [exec_op ContentType]. unfold exec_s3, next_fault.
  cbn [faults log objects]. rewrite Hf.
  change (objects (log (EvCopy dst_bucket dst_key) (log (EvHead src_bucket src_key) st)))
    with (objects st).
  rewrite Hd. cbn [run snd objects set_objects log].
  apply lookup_insert_eq.
Qed.

Lemma copy_metadata_sets_content_type_witness :
  objects (snd (run (_copy_metadata_if_available (codec := RefCodec.codec)
                       "src" "in/1.parquet" "dst" "out/1.parquet") Sample.st2))
          !! ("dst", "out/1.parquet")
  = Some (@Build_S3Object RefCodec.codec Sample.file1 (Some "application/x-parquet")).
Proof.
  apply (copy_metadata_sets_content_type (codec := RefCodec.codec)
           "src" "in/1.parquet" "dst" "out/1.parquet"
           (Sample.obj Sample.file1) (Sample.obj Sample.file1) Sample.st2).
  - reflexivity.
  - vm_compute. reflexivity.
  - vm_compute. reflexivity.
Defined.

(** X24.  The existence check only reads: it leaves the object store, the
    local files and the counters as they are, and when [skip_existing] is
    off it makes no call at all: the state, trace included, is unchanged. *)
Theorem should_skip_existing_reads_only {codec : Codec}
        (bucket key : string) (skip_existing : bool) (st : State) :
  let st' := snd (run (_should_skip_existing bucket key skip_existing) st) in
  objects st' = objects st /\ local_files st' = local_files st /\
  ok_counter st' = ok_counter st /\ err_counter st' = err_counter st /\
  (skip_existing = false -> st' = st) /\
  (skip_existing = true -> trace st' = trace st ++ [EvHead bucket key]).
Proof.
  cbv zeta. rewrite should_skip_existing_run.
  pose proof (head_object_effect bucket key st) as (Ho & He & Hob & Hl & _ & Ht).
  cbv zeta in *. destruct skip_existing; cbn [snd].
  - split; [exact Hob|]. split; [exact Hl|]. split; [exact Ho|]. split; [exact He|].
    split; [discriminate | intros _; exact Ht].
  - split; [reflexivity|]. split; [reflexivity|]. split; [reflexivity|].
    split; [reflexivity|]. split; [reflexivity | discriminate].
Qed.
